(** * Serene chat service (app.py): shallow embedding and verified properties

    The Flask application of [src/app.py] is embedded as pure functions:

    - Python [str] values are lists of Unicode code points ([PyStr]);
    - the users table is the list of its rows in rowid order, the Flask
      session is the dictionary it is in the source ([gmap string Z]);
    - every route is a function from the request (and the table) to the
      response (and the new table or session);
    - the chat route additionally records the statements it executes in a
      trace, so that the order of the checks and the absence of a call to
      the language model can be stated.

    The password hashing of werkzeug, the Unicode case mapping of the
    interpreter and the language model are libraries outside the repository;
    they appear as parameters. *)

From Stdlib Require Import ZArith NArith QArith List Ascii String Lia.
From stdpp Require Import base option list gmap strings.

(** ** Python strings *)

Module PyStr.

(** A character is a code point, a [str] is the sequence of its characters. *)
Definition char := N.
Definition str := list char.

(** An ASCII literal of this file as a [str]. *)
Definition py (s : string) : str := N_of_ascii <$> list_ascii_of_string s.

Definition space : char := 32%N.

(** [Py_UNICODE_ISSPACE]: the characters that [str.strip()], [str.split()]
    and the pattern [\s] of [re] (on [str]) treat as whitespace. *)
Definition isspace (c : char) : bool :=
  ((9 <=? c) && (c <=? 13) || (28 <=? c) && (c <=? 32) ||
   (c =? 133) || (c =? 160) || (c =? 5760) ||
   (8192 <=? c) && (c <=? 8202) ||
   (c =? 8232) || (c =? 8233) || (c =? 8239) || (c =? 8287) ||
   (c =? 12288))%N.

(** [s.lstrip()], [s.rstrip()], [s.strip()]. *)
Fixpoint lstrip (s : str) : str :=
  match s with
  | c :: s' => if isspace c then lstrip s' else s
  | [] => []
  end.

Definition rstrip (s : str) : str := rev (lstrip (rev s)).

Definition strip (s : str) : str := rstrip (lstrip s).

(** [s.lower()]. CPython lowers a string of ASCII characters character by
    character; any other string goes through the Unicode case mapping
    (which is not a character-wise map), here the parameter [unicode_lower]. *)
Definition isascii (c : char) : bool := (c <? 128)%N.

Definition ascii_lower (c : char) : char :=
  if ((65 <=? c) && (c <=? 90))%N then (c + 32)%N else c.

Definition lower (unicode_lower : str -> str) (s : str) : str :=
  if forallb isascii s then ascii_lower <$> s else unicode_lower s.

(** [s.startswith(p)]. *)
Fixpoint startswith (s p : str) : bool :=
  match p, s with
  | [], _ => true
  | a :: p', b :: s' => (a =? b)%N && startswith s' p'
  | _ :: _, [] => false
  end.

(** [s.find(sub)]: the lowest index at which [sub] occurs in [s]
    ([None] for Python's -1). *)
Fixpoint find (s sub : str) : option nat :=
  if startswith s sub then Some 0
  else match s with
       | [] => None
       | _ :: s' => S <$> find s' sub
       end.

(** [sub in s]. *)
Definition contains (s sub : str) : bool :=
  match find s sub with Some _ => true | None => false end.

(** [s.split(sep, 1)] for a non-empty [sep]: at most one split, at the
    first occurrence of [sep]. *)
Definition split1 (s sep : str) : list str :=
  match find s sep with
  | Some i => [take i s; drop (i + length sep) s]
  | None => [s]
  end.

(** [s.split()]: the maximal runs of non-whitespace characters. [w] is the
    word being read. *)
Fixpoint split_from (w : str) (s : str) : list str :=
  match s with
  | [] => match w with [] => [] | _ => [w] end
  | c :: s' =>
      if isspace c
      then match w with [] => split_from [] s' | _ => w :: split_from [] s' end
      else split_from (w ++ [c]) s'
  end.

Definition split (s : str) : list str := split_from [] s.

(** [sep.join(l)]. *)
Fixpoint join (sep : str) (l : list str) : str :=
  match l with
  | [] => []
  | [w] => w
  | w :: l' => w ++ sep ++ join sep l'
  end.

(** [re.sub(r"\s+", " ", s)]: every maximal run of whitespace is replaced by
    one space. [in_run] tells that the previous character was whitespace,
    already replaced. *)
Fixpoint sub_ws_from (in_run : bool) (s : str) : str :=
  match s with
  | [] => []
  | c :: s' =>
      if isspace c
      then if in_run then sub_ws_from true s' else space :: sub_ws_from true s'
      else c :: sub_ws_from false s'
  end.

Definition re_sub_ws (s : str) : str := sub_ws_from false s.

End PyStr.

Import PyStr.

(** ** The application *)

(** The row type of the users table (class [User], lines 26-29). SQLite does
    not enforce the declared lengths of the string columns. *)
Module User.
Record t := mk { id : Z; username : str; password : str }.
End User.

Inductive http_method := GET | POST.

(** What a handler reads of a request: the method, the form fields and the
    session dictionary that Flask restores from the signed cookie. *)
Record request := mkRequest {
  method : http_method;
  form : gmap string str;
  session : gmap string Z
}.

Inductive endpoint := ep_home | ep_login.

Inductive template := index_html | register_html | login_html.

(** What a handler returns. [Text body status] is [return body, status]
    (a lone string has status 200); [BadRequestKeyError k] is the HTTP 400
    that [request.form[k]] aborts with when the field [k] is absent. *)
Inductive response :=
| Text (body : str) (status : Z)
| Redirect (target : endpoint)
| Render (page : template)
| BadRequestKeyError (key : string).

(** The tokenizer and the model loaded from [serene_model] (lines 41-51);
    the transformers library is outside the repository, so a tokenizer is its
    encoding and decoding functions and a model is its [generate]. *)
Record GenerationConfig := mkConfig {
  max_length : Z;
  temperature : Q;
  top_p : Q;
  pad_token_id : Z
}.

Record Tokenizer := mkTokenizer {
  encode : str -> list Z;
  decode : list Z -> str;
  eos_token_id : Z
}.

Record Model := mkModel { generate : list Z -> GenerationConfig -> list Z }.

(** The module-level variables [tokenizer] and [model]. *)
Record globals := mkGlobals {
  tokenizer : option Tokenizer;
  model : option Model
}.

(** Lines 41-51: both are loaded, or any exception leaves both [None]. *)
Definition load_serene_model (loaded : option (Tokenizer * Model)) : globals :=
  match loaded with
  | Some (t, m) => {| tokenizer := Some t; model := Some m |}
  | None => {| tokenizer := None; model := None |}
  end.

(** Line 57. *)
Definition build_prompt (user_input : str) : str :=
  py "User: " ++ user_input ++ [10%N] ++ py "Serene:".

(** The statements of [get_bot_response], in the order the trace records
    them. *)
Inductive event :=
| EvSessionCheck                  (* line 117: "user_id" not in session *)
| EvReadMessage                   (* line 120: form.get("msg", "").strip() *)
| EvEmptyCheck                    (* line 121: not user_message *)
| EvCrisisCheck                   (* line 126: any(word in ... ) *)
| EvModelCheck                    (* line 133: model is None or tokenizer is None *)
| EvTokenize (prompt : str)       (* line 139 *)
| EvGenerate (inputs : list Z)    (* line 142 *)
| EvDecode (output : list Z)      (* line 150 *)
| EvExtract                       (* lines 153-154 *)
| EvFormat.                       (* lines 157-162 *)

(** A computation that logs the statements it runs. *)
Definition traced (A : Type) : Type := A * list event.

Definition answer {A} (a : A) : traced A := (a, []).

Definition step {A} (e : event) (k : traced A) : traced A := (k.1, e :: k.2).

Notation "'run' e ';;' k" := (step e k)
  (at level 10, e at level 9, k at level 200, only parsing).

(** Line 125. *)
Definition crisis_words : list str :=
  [py "suicide"; py "kill myself"; py "end my life"; py "want to die";
   py "hurt myself"].

(** Lines 127-131. *)
Definition safety_message : str :=
  [127800%N] ++ py " I'm really sorry you're feeling this way. " ++
  py "If you're in immediate danger, please call emergency services (112 in India). " ++
  py "You don" ++ [8217%N] ++ py "t have to face this alone " ++ [8212%N] ++
  py " I" ++ [8217%N] ++ py "m here with you.".

(** Line 134. *)
Definition unavailable_message : str :=
  [9888%N; 65039%N] ++ py " Serene model unavailable.".

(** Line 122. *)
Definition empty_message : str := py "Please type something " ++ [128172%N].

(** Lines 142-148. *)
Definition generation_config (t : Tokenizer) : GenerationConfig :=
  {| max_length := 120%Z; temperature := (65 # 100)%Q; top_p := (9 # 10)%Q;
     pad_token_id := eos_token_id t |}.

(** Lines 153-154: [reply.split("Serene:", 1)[1].strip()] under the guard
    ["Serene:" in reply]; [None] is the [IndexError] of the subscript. *)
Definition extract_reply (reply : str) : option str :=
  if contains reply (py "Serene:")
  then strip <$> (split1 reply (py "Serene:") !! 1%nat)
  else Some reply.

(** Lines 157-162. *)
Definition format_reply (reply : str) : str :=
  let reply := re_sub_ws reply in
  let words := split reply in
  if (60 <? length words)%nat
  then join (py " ") (take 60 words) ++ py "..."
  else reply.

(** ** Notions used in the statements *)

(** [sub] occurs in [s]. *)
Definition substring (sub s : str) : Prop :=
  ∃ pre post, s = pre ++ sub ++ post.

(** [sub] occurs in [s] at index [i]. *)
Definition occurs_at (sub s : str) (i : nat) : Prop :=
  ∃ post, drop i s = sub ++ post.

(** The statements that belong to the generation adapter. *)
Definition is_generation (e : event) : bool :=
  match e with
  | EvTokenize _ | EvGenerate _ | EvDecode _ => true
  | _ => false
  end.

Definition generation_calls (tr : list event) : list event :=
  List.filter is_generation tr.

(** The request carries a session with a user id. *)
Definition authenticated (req : request) : Prop :=
  is_Some (session req !! "user_id").

(** The message the chat route works on. *)
Definition message_of (req : request) : str :=
  strip (default [] (form req !! "msg")).

(** [a] is executed before [b] in the trace. *)
Definition precedes (a b : event) (tr : list event) : Prop :=
  ∃ l1 l2 l3, tr = l1 ++ a :: l2 ++ b :: l3.

(** The session gate and the reading of the form field, which any order of
    the checks has in front. *)
Definition is_entry (e : event) : bool :=
  match e with
  | EvSessionCheck | EvReadMessage => true
  | _ => false
  end.

(** Nothing but the entry steps is executed before the crisis check. *)
Definition crisis_check_first (tr : list event) : Prop :=
  ∀ e, precedes e EvCrisisCheck tr → is_entry e = true.

(** The steps of the route that follow the crisis check. *)
Definition is_after_crisis (e : event) : bool :=
  match e with
  | EvSessionCheck | EvReadMessage | EvEmptyCheck | EvCrisisCheck => false
  | _ => true
  end.

(** A word: a non-empty string without whitespace. *)
Definition is_word (w : str) : Prop :=
  w ≠ [] ∧ forallb (λ c, negb (isspace c)) w = true.

(** Every whitespace character of [s] is a space, and no two whitespace
    characters are adjacent. *)
Fixpoint single_spaced (s : str) : bool :=
  match s with
  | [] => true
  | c :: s' =>
      (if isspace c
       then (c =? space)%N &&
            match s' with d :: _ => negb (isspace d) | [] => true end
       else true) && single_spaced s'
  end.

(** [k] is [s] without its leading and trailing whitespace. *)
Definition trimmed (s k : str) : Prop :=
  ∃ l r, s = l ++ k ++ r ∧
    forallb isspace l = true ∧ forallb isspace r = true ∧
    (∀ c, head k = Some c → isspace c = false) ∧
    (∀ c, last k = Some c → isspace c = false).

(** Two facts about werkzeug's hashers (scrypt and pbkdf2): a hash checks
    against the password it was generated from; and, the password being the
    key of an HMAC, which pads a key shorter than its 64-byte block with NUL
    bytes, the hash of a password of fewer than 64 ASCII characters checks
    against that password followed by a NUL character as well. *)
Definition werkzeug_contract
    (generate_password_hash : str → str → str)
    (check_password_hash : str → str → bool) : Prop :=
  (∀ salt pw,
     check_password_hash (generate_password_hash salt pw) pw = true) ∧
  (∀ salt pw,
     forallb isascii pw = true → (length pw < 64)%nat →
     check_password_hash (generate_password_hash salt pw) (pw ++ [0%N]) = true).

(** A hasher with these two facts, used to run the development on concrete
    requests: the hash is the key block of the HMAC, the password padded with
    NUL characters to 64 characters. *)
Definition hmac_key (password : str) : str :=
  password ++ replicate (64 - length password) 0%N.

Definition hmac_generate (salt password : str) : str := hmac_key password.

Definition hmac_check (pwhash password : str) : bool :=
  bool_decide (pwhash = hmac_key password).

(** A hasher that stores the password itself: the smallest instance of the
    hashing interface, used to run the development on concrete requests. *)
Definition plain_generate (salt password : str) : str := password.

Definition plain_check (pwhash password : str) : bool :=
  bool_decide (pwhash = password).

(** Concrete requests on which the development is run. *)
Module Sample.

Definition logged_in : gmap string Z := {[ "user_id" := 1%Z ]}.

Definition chat (msg : str) (sess : gmap string Z) : request :=
  mkRequest POST {[ "msg" := msg ]} sess.

Definition credentials (username password : str) : request :=
  mkRequest POST {[ "username" := username; "password" := password ]} ∅.

Definition no_model : globals := load_serene_model None.

(** A case mapping that leaves non-ASCII strings as they are. *)
Definition keep_case (s : str) : str := s.

(** A tokenizer whose tokens are the code points, and a model that completes
    every prompt with the same sentence. *)
Definition codepoints : Tokenizer :=
  mkTokenizer (λ s, Z.of_N <$> s) (λ ids, Z.to_N <$> ids) 0%Z.

Definition parrot : Model :=
  mkModel (λ inputs _, inputs ++ (Z.of_N <$> ([32%N; 10%N] ++ py "I hear  you. "))).

Definition with_model : globals := load_serene_model (Some (codepoints, parrot)).

End Sample.

Section Serene.

(** [str.lower] on strings with a non-ASCII character. *)
Variable unicode_lower : str -> str.

(** [werkzeug.security]: [generate_password_hash] draws a random salt, here
    its first argument; [check_password_hash pwhash password]. *)
Variable generate_password_hash : str -> str -> str.
Variable check_password_hash : str -> str -> bool.

(** What is assumed of the hasher: a hash checks against the password it was
    generated from. Nothing is assumed of the other passwords: whether one of
    them checks too is for [check_password_hash] to say. *)
Hypothesis check_generated :
  ∀ salt pw, check_password_hash (generate_password_hash salt pw) pw = true.

(** [User.query.filter_by(username=username)]: comparison is SQLite's
    BINARY collation, that is equality. *)
Definition filter_by_username (username : str) (users : list User.t) : list User.t :=
  filter (λ u, User.username u = username) users.

(** The id of a new row of an [INTEGER PRIMARY KEY] column: one more than
    the largest in the table. *)
Definition next_id (users : list User.t) : Z :=
  (1 + foldr Z.max 0 (User.id <$> users))%Z.

(** Lines 64-68. *)
Definition home (req : request) : response :=
  if bool_decide (is_Some (session req !! "user_id"))
  then Render index_html
  else Redirect ep_login.

(** Lines 71-86. The result is the response and the users table. *)
Definition signup (salt : str) (req : request) (users : list User.t)
  : response * list User.t :=
  match method req with
  | POST =>
      match form req !! "username" with
      | None => (BadRequestKeyError "username", users)
      | Some raw =>
          let username := strip raw in
          match form req !! "password" with
          | None => (BadRequestKeyError "password", users)
          | Some password =>
              match head (filter_by_username username users) with
              | Some _ => (Text (py "Username already exists!") 400%Z, users)
              | None =>
                  let hashed_pw := generate_password_hash salt password in
                  let user := User.mk (next_id users) username hashed_pw in
                  (Redirect ep_login, users ++ [user])
              end
          end
      end
  | GET => (Render register_html, users)
  end.

(** Lines 89-103. The result is the response and the session. *)
Definition login (req : request) (users : list User.t)
  : response * gmap string Z :=
  match method req with
  | POST =>
      match form req !! "username" with
      | None => (BadRequestKeyError "username", session req)
      | Some raw =>
          let username := strip raw in
          match form req !! "password" with
          | None => (BadRequestKeyError "password", session req)
          | Some password =>
              match head (filter_by_username username users) with
              | Some user =>
                  if check_password_hash (User.password user) password
                  then (Redirect ep_home,
                        <["user_id" := User.id user]> (session req))
                  else (Text (py "Invalid username or password.") 401%Z,
                        session req)
              | None =>
                  (Text (py "Invalid username or password.") 401%Z, session req)
              end
          end
      end
  | GET => (Render login_html, session req)
  end.

(** Lines 106-109. *)
Definition logout (req : request) : response * gmap string Z :=
  (Redirect ep_login, ∅).

(** The table after a sequence of signup requests, each with the salt drawn
    for it. *)
Definition run_signups (reqs : list (str * request)) (users : list User.t)
  : list User.t :=
  foldl (λ table sr, (signup sr.1 sr.2 table).2) users reqs.

(** Line 126, on the trimmed message. *)
Definition contains_crisis_language (user_message : str) : bool :=
  existsb (λ word, contains (lower unicode_lower user_message) word) crisis_words.

(** Lines 115-164. [None] as response is an uncaught exception (HTTP 500). *)
Definition get_bot_response (g : globals) (req : request)
  : traced (option response) :=
  run EvSessionCheck ;;
  if bool_decide (is_Some (session req !! "user_id")) then
    run EvReadMessage ;;
    let user_message := strip (default [] (form req !! "msg")) in
    run EvEmptyCheck ;;
    match user_message with
    | [] => answer (Some (Text empty_message 200%Z))
    | _ :: _ =>
        run EvCrisisCheck ;;
        if contains_crisis_language user_message then
          answer (Some (Text safety_message 200%Z))
        else
          run EvModelCheck ;;
          match model g, tokenizer g with
          | Some m, Some t =>
              let prompt := build_prompt user_message in
              run (EvTokenize prompt) ;;
              let inputs := encode t prompt in
              run (EvGenerate inputs) ;;
              let output := generate m inputs (generation_config t) in
              run (EvDecode output) ;;
              let reply := decode t output in
              run EvExtract ;;
              match extract_reply reply with
              | Some reply => run EvFormat ;; answer (Some (Text (format_reply reply) 200%Z))
              | None => answer None
              end
          | _, _ => answer (Some (Text unavailable_message 200%Z))
          end
    end
  else answer (Some (Text (py "Please log in to chat.") 401%Z)).

(** *** Substring search *)

Lemma startswith_nil_r (s : str) : startswith s [] = true.
Proof. by destruct s. Qed.

Lemma startswith_app (s p : str) :
  startswith s p = true ↔ ∃ post, s = p ++ post.
Proof.
  revert s; induction p as [|a p IH]; intros s; simpl.
  - rewrite startswith_nil_r. split; [intros _; by exists s | done].
  - destruct s as [|b s].
    + split; [done | intros [post H]; discriminate].
    + simpl. rewrite andb_true_iff, N.eqb_eq, IH. split.
      * intros [-> [post ->]]. by exists post.
      * intros [post H]. injection H as -> ->. eauto.
Qed.

Lemma find_unfold (s sub : str) :
  find s sub =
  if startswith s sub then Some 0%nat
  else match s with [] => None | _ :: s' => S <$> find s' sub end.
Proof. by destruct s. Qed.

Lemma find_Some (s sub : str) (i : nat) :
  find s sub = Some i →
  occurs_at sub s i ∧ ∀ j, (j < i)%nat → ¬ occurs_at sub s j.
Proof.
  revert i; induction s as [|c s IH]; intros i; rewrite find_unfold;
    destruct (startswith _ sub) eqn:E.
  - intros [= <-]. split; [by apply startswith_app | lia].
  - done.
  - intros [= <-]. split; [by apply startswith_app | lia].
  - destruct (find s sub) as [k|] eqn:F; [|done].
    intros [= <-]. destruct (IH k eq_refl) as [Hk Hmin]. split; [done|].
    intros [|j] Hj.
    + intros H. apply startswith_app in H. rewrite drop_0 in H. congruence.
    + apply Hmin. lia.
Qed.

Lemma find_None (s sub : str) :
  find s sub = None → ∀ j, ¬ occurs_at sub s j.
Proof.
  induction s as [|c s IH]; rewrite find_unfold;
    destruct (startswith _ sub) eqn:E; try done.
  - intros _ j H. unfold occurs_at in H. rewrite drop_nil in H.
    apply startswith_app in H. congruence.
  - destruct (find s sub) eqn:F; [done|]. intros _ [|j] H.
    + apply startswith_app in H. rewrite drop_0 in H. congruence.
    + by apply (IH eq_refl j).
Qed.

Lemma occurs_at_substring (sub s : str) :
  substring sub s ↔ ∃ i, occurs_at sub s i.
Proof.
  split.
  - intros (pre & post & ->). exists (length pre), post.
    by rewrite drop_app_length.
  - intros (i & post & H). exists (take i s), post.
    by rewrite <- H, take_drop.
Qed.

Lemma contains_substring (s sub : str) :
  contains s sub = true ↔ substring sub s.
Proof.
  unfold contains. rewrite occurs_at_substring.
  destruct (find s sub) as [i|] eqn:F.
  - apply find_Some in F as [H _]. split; eauto.
  - split; [done|]. intros [j H]. by apply find_None with (j := j) in F.
Qed.

(** *** The chat route *)

Lemma contains_crisis_language_true (m : str) :
  contains_crisis_language m = true ↔
  ∃ word, word ∈ crisis_words ∧ substring word (lower unicode_lower m).
Proof.
  unfold contains_crisis_language. rewrite existsb_exists. split.
  - intros (w & Hin & Hc). exists w. split; [by apply list_elem_of_In|].
    by apply contains_substring.
  - intros (w & Hin & Hc). exists w. split; [by apply list_elem_of_In|].
    by apply contains_substring.
Qed.


Lemma safety_message_emergency :
  substring (py "emergency services") safety_message.
Proof. apply contains_substring. by vm_compute. Qed.

Lemma get_bot_response_message (g : globals) (req : request) :
  authenticated req →
  get_bot_response g req =
  step EvSessionCheck (step EvReadMessage (step EvEmptyCheck
    match message_of req with
    | [] => answer (Some (Text empty_message 200%Z))
    | _ :: _ =>
        step EvCrisisCheck
          (if contains_crisis_language (message_of req)
           then answer (Some (Text safety_message 200%Z))
           else step EvModelCheck
             match model g, tokenizer g with
             | Some m, Some t =>
                 let prompt := build_prompt (message_of req) in
                 let output := generate m (encode t prompt) (generation_config t) in
                 step (EvTokenize prompt) (step (EvGenerate (encode t prompt))
                   (step (EvDecode output) (step EvExtract
                      match extract_reply (decode t output) with
                      | Some reply =>
                          step EvFormat
                            (answer (Some (Text (format_reply reply) 200%Z)))
                      | None => answer None
                      end)))
             | _, _ => answer (Some (Text unavailable_message 200%Z))
             end)
    end)).
Proof.
  intros Hauth. unfold get_bot_response, message_of.
  rewrite bool_decide_eq_true_2 by done.
  by destruct (strip _).
Qed.

(** C1: an authenticated chat request whose trimmed message is not empty and
    whose lowercased text contains one of the five crisis phrases is answered
    with the fixed safety message, which mentions the emergency services, and
    no statement of the generation adapter is executed. *)
Theorem C1_crisis_phrase_short_circuits
  (g : globals) (req : request) (word : str) :
  authenticated req →
  message_of req ≠ [] →
  word ∈ crisis_words →
  substring word (lower unicode_lower (message_of req)) →
  (get_bot_response g req).1 = Some (Text safety_message 200%Z) ∧
  generation_calls (get_bot_response g req).2 = [] ∧
  substring (py "emergency services") safety_message.
Proof.
  intros Hauth Hne Hin Hsub.
  assert (Hc : contains_crisis_language (message_of req) = true)
    by (apply contains_crisis_language_true; eauto).
  rewrite get_bot_response_message by done.
  destruct (message_of req) as [|c m] eqn:Hm; [done|].
  rewrite Hc. split_and!; [done | done | apply safety_message_emergency].
Qed.

(** The crisis phrases of the spec's examples, for every case mapping of
    non-ASCII strings. *)
Example crisis_want_to_die :
  contains_crisis_language (py "I want to die") = true.
Proof. reflexivity. Qed.

Example crisis_want_pizza :
  contains_crisis_language (py "I want pizza") = false.
Proof. reflexivity. Qed.

Example crisis_upper_case :
  contains_crisis_language (py "SUICIDE") = true.
Proof. reflexivity. Qed.

(** C2, amended: when the model or the tokenizer is not loaded, an
    authenticated request whose trimmed message is not empty and contains no
    crisis phrase is answered with the fixed unavailability message, and no
    statement of the generation adapter is executed. *)
Theorem C2_unavailable_after_the_guards (g : globals) (req : request) :
  authenticated req →
  message_of req ≠ [] →
  contains_crisis_language (message_of req) = false →
  model g = None ∨ tokenizer g = None →
  (get_bot_response g req).1 = Some (Text unavailable_message 200%Z) ∧
  generation_calls (get_bot_response g req).2 = [].
Proof.
  intros Hauth Hne Hc Hg.
  rewrite get_bot_response_message by done.
  destruct (message_of req) as [|c m] eqn:Hm; [done|].
  rewrite Hc.
  destruct Hg as [-> | ->]; [done|]. by destruct (model g).
Qed.

(** C3, amended: on every authenticated request whose trimmed message is not
    empty the crisis check is executed, whatever else the request carries
    and whatever the state of the model; the statements executed before it
    are the session check, the reading and trimming of the message and the
    empty-input check, in this order; the model-availability check and the
    generation, extraction and formatting steps are executed only after it. *)
Theorem C3_crisis_check_position (g : globals) (req : request) :
  authenticated req →
  message_of req ≠ [] →
  ∃ rest,
    (get_bot_response g req).2 =
      [EvSessionCheck; EvReadMessage; EvEmptyCheck; EvCrisisCheck] ++ rest ∧
    Forall (λ e, is_after_crisis e = true) rest.
Proof.
  intros Hauth Hne. rewrite get_bot_response_message by done.
  destruct (message_of req) as [|c m] eqn:Hm; [done|].
  destruct (contains_crisis_language _).
  { exists []. by split. }
  destruct (model g) as [md|], (tokenizer g) as [t|];
    try (exists [EvModelCheck]; split; [done | by repeat constructor]).
  cbv zeta. destruct (extract_reply _); eexists; (split; [reflexivity|]);
    by repeat constructor.
Qed.

(** C8: a chat request without a user id in its session is answered with
    status 401 and the text "Please log in to chat.", whatever the message
    (and the form) is; the session check is the only statement executed. *)
Theorem C8_unauthenticated_chat_rejected (g : globals) (req : request) :
  ¬ authenticated req →
  get_bot_response g req =
    (Some (Text (py "Please log in to chat.") 401%Z), [EvSessionCheck]).
Proof.
  intros Hno. unfold get_bot_response.
  by rewrite bool_decide_eq_false_2.
Qed.


(** *** Whitespace: [strip], [split], [join] and [re.sub] *)

Lemma lstrip_spec (s : str) :
  ∃ l, s = l ++ lstrip s ∧ forallb isspace l = true ∧
       ∀ c, head (lstrip s) = Some c → isspace c = false.
Proof.
  induction s as [|c s (l & Hs & Hl & Hh)]; simpl.
  - by exists [].
  - destruct (isspace c) eqn:E.
    + exists (c :: l). simpl. rewrite E, Hl. split; [by f_equal | done].
    + exists []. split_and!; [done | done |]. by intros ? [= <-].
Qed.

Lemma head_rev_last (s : str) : head (rev s) = last s.
Proof. rewrite <- head_reverse. unfold reverse. by rewrite <- rev_alt. Qed.

Lemma forallb_rev (f : char → bool) (l : str) :
  forallb f (rev l) = forallb f l.
Proof.
  induction l as [|c l IH]; [done|]. simpl.
  rewrite forallb_app, IH. simpl. by rewrite andb_true_r, andb_comm.
Qed.

Lemma rstrip_spec (s : str) :
  ∃ r, s = rstrip s ++ r ∧ forallb isspace r = true ∧
       ∀ c, last (rstrip s) = Some c → isspace c = false.
Proof.
  unfold rstrip. destruct (lstrip_spec (rev s)) as (l & Hs & Hl & Hh).
  exists (rev l). split_and!.
  - rewrite <- rev_app_distr, <- Hs. by rewrite rev_involutive.
  - by rewrite forallb_rev.
  - intros c. rewrite <- head_rev_last, rev_involutive. apply Hh.
Qed.

Lemma rstrip_head (s : str) (c : char) :
  (∀ d, head s = Some d → isspace d = false) →
  head (rstrip s) = Some c → isspace c = false.
Proof.
  intros Hs. destruct (rstrip_spec s) as (r & Heq & Hr & Hl).
  destruct (rstrip s) as [|d k] eqn:E; [done|].
  intros [= ->]. apply Hs. by rewrite Heq.
Qed.

Lemma strip_trimmed (s : str) : trimmed s (strip s).
Proof.
  unfold strip. destruct (lstrip_spec s) as (l & Hs & Hl & Hh).
  destruct (rstrip_spec (lstrip s)) as (r & Hs' & Hr & Hla).
  exists l, r. split_and!; try done.
  - by rewrite <- Hs', <- Hs.
  - intros c. by apply rstrip_head.
Qed.

Lemma split_from_word (u w s : str) :
  forallb (λ c, negb (isspace c)) u = true →
  split_from w (u ++ s) = split_from (w ++ u) s.
Proof.
  revert w; induction u as [|c u IH]; intros w Hu; simpl.
  - by rewrite app_nil_r.
  - simpl in Hu. apply andb_true_iff in Hu as [Hc Hu].
    apply negb_true_iff in Hc. rewrite Hc, IH by done.
    by rewrite <- app_assoc.
Qed.

Lemma split_from_space (w s : str) :
  w ≠ [] → split_from w (space :: s) = w :: split_from [] s.
Proof. intros Hw. simpl. by destruct w. Qed.

Lemma join_cons_cons (sep w x : str) (l : list str) :
  join sep (w :: x :: l) = w ++ sep ++ join sep (x :: l).
Proof. done. Qed.

Lemma split_word (w : str) : is_word w → split w = [w].
Proof.
  intros [Hne Hw]. unfold split.
  rewrite <- (app_nil_r w) at 1. rewrite split_from_word by done.
  simpl. by destruct w.
Qed.

Lemma split_join (ws : list str) :
  Forall is_word ws → split (join (py " ") ws) = ws.
Proof.
  induction 1 as [|w ws [Hne Hw] Hws IH]; [done|].
  destruct ws as [|x ws]; [by apply split_word|]. unfold split in *.
  rewrite join_cons_cons, split_from_word by done. simpl app at 1.
  change (py " " ++ ?r) with (space :: r).
  rewrite split_from_space by done. by rewrite IH.
Qed.

Lemma sub_ws_from_nonspace (u s : str) :
  forallb (λ c, negb (isspace c)) u = true →
  sub_ws_from false (u ++ s) = u ++ sub_ws_from false s.
Proof.
  induction u as [|c u IH]; [done|]. simpl. intros Hu.
  apply andb_true_iff in Hu as [Hc Hu]. apply negb_true_iff in Hc.
  by rewrite Hc, IH.
Qed.

Lemma sub_ws_from_word (b : bool) (u s : str) :
  is_word u → sub_ws_from b (u ++ s) = u ++ sub_ws_from false s.
Proof.
  intros [Hne Hu]. destruct u as [|c u]; [done|]. simpl in *.
  apply andb_true_iff in Hu as [Hc Hu]. apply negb_true_iff in Hc.
  by rewrite Hc, sub_ws_from_nonspace.
Qed.

Lemma sub_ws_from_join (b : bool) (ws : list str) :
  Forall is_word ws → sub_ws_from b (join (py " ") ws) = join (py " ") ws.
Proof.
  intros H; revert b; induction H as [|w ws Hw Hws IH]; intros b; [done|].
  destruct ws as [|x ws].
  - simpl. rewrite <- (app_nil_r w) at 1. rewrite sub_ws_from_word by done.
    simpl. by rewrite app_nil_r.
  - rewrite join_cons_cons, sub_ws_from_word by done.
    change (py " " ++ ?r) with (space :: r).
    change (sub_ws_from false (space :: ?r)) with (space :: sub_ws_from true r).
    by rewrite IH.
Qed.

Lemma split_from_sub_ws (s : str) :
  (∀ w, split_from w (sub_ws_from false s) = split_from w s) ∧
  split_from [] (sub_ws_from true s) = split_from [] s.
Proof.
  induction s as [|c s [IH1 IH2]]; [done|]. simpl.
  destruct (isspace c) eqn:E.
  - split; [|done]. intros w.
    change (split_from w (space :: ?r))
      with (match w with [] => split_from [] r | _ => w :: split_from [] r end).
    by rewrite IH2.
  - simpl. rewrite E. split; [intros w|]; apply IH1.
Qed.

Lemma split_re_sub_ws (s : str) : split (re_sub_ws s) = split s.
Proof. apply split_from_sub_ws. Qed.

Lemma sub_ws_from_true_head (s : str) (c : char) :
  head (sub_ws_from true s) = Some c → isspace c = false.
Proof.
  induction s as [|d s IH]; [done|]. simpl.
  destruct (isspace d) eqn:E; [done|]. by intros [= <-].
Qed.

Lemma single_spaced_sub_ws (b : bool) (s : str) :
  single_spaced (sub_ws_from b s) = true.
Proof.
  revert b; induction s as [|c s IH]; intros b; [done|]. simpl.
  destruct (isspace c) eqn:E.
  - destruct b; [done|]. simpl. rewrite IH, andb_true_r.
    destruct (sub_ws_from true s) as [|d r] eqn:F; [done|].
    by rewrite (sub_ws_from_true_head s d) by (by rewrite F).
  - simpl. by rewrite E, IH.
Qed.


(** *** The reply: extraction and formatting *)

Lemma format_reply_words (text : str) :
  format_reply text =
  if (60 <? length (split text))%nat
  then join (py " ") (take 60 (split text)) ++ py "..."
  else re_sub_ws text.
Proof. unfold format_reply. cbv zeta. by rewrite split_re_sub_ws. Qed.

Lemma format_reply_join (ws : list str) :
  Forall is_word ws →
  format_reply (join (py " ") ws) =
  if (60 <? length ws)%nat
  then join (py " ") (take 60 ws) ++ py "..."
  else join (py " ") ws.
Proof.
  intros H. rewrite format_reply_words, split_join by done.
  unfold re_sub_ws. by rewrite sub_ws_from_join.
Qed.

(** C4: the formatter replaces every whitespace run of the text by one
    space; the words of the result are the words of the text; with more than
    60 words the result is the first 60 words joined by single spaces and
    followed by "...", otherwise it is the collapsed text with all its
    words. 100 times the same word gives 60 times the word and "...", and
    10 words joined by single spaces are returned as they are. *)
Theorem C4_format_reply (text : str) :
  single_spaced (re_sub_ws text) = true ∧
  split (re_sub_ws text) = split text ∧
  ((60 < length (split text))%nat →
     format_reply text = join (py " ") (take 60 (split text)) ++ py "...") ∧
  ((length (split text) ≤ 60)%nat →
     format_reply text = re_sub_ws text ∧
     split (format_reply text) = split text) ∧
  (∀ w, is_word w →
     format_reply (join (py " ") (replicate 100 w)) =
     join (py " ") (replicate 60 w) ++ py "...") ∧
  (∀ ws, length ws = 10%nat → Forall is_word ws →
     format_reply (join (py " ") ws) = join (py " ") ws ∧
     split (format_reply (join (py " ") ws)) = ws).
Proof.
  split_and!.
  - apply single_spaced_sub_ws.
  - apply split_re_sub_ws.
  - intros H. rewrite format_reply_words.
    by rewrite (proj2 (Nat.ltb_lt _ _) H).
  - intros H. rewrite format_reply_words.
    rewrite (proj2 (Nat.ltb_ge _ _) H). by rewrite split_re_sub_ws.
  - intros w Hw. rewrite format_reply_join by by apply Forall_replicate.
    rewrite length_replicate. change (60 <? 100)%nat with true. cbv iota.
    by rewrite take_replicate.
  - intros ws Hlen Hws. rewrite format_reply_join by done.
    rewrite Hlen. change (60 <? 10)%nat with false. cbv iota.
    by rewrite split_join.
Qed.

Lemma extract_reply_found (reply : str) (i : nat) :
  find reply (py "Serene:") = Some i →
  extract_reply reply = Some (strip (drop (i + 7) reply)).
Proof.
  intros F. unfold extract_reply, contains, split1. by rewrite F.
Qed.

Lemma extract_reply_total (reply : str) : is_Some (extract_reply reply).
Proof.
  unfold extract_reply, contains, split1.
  destruct (find reply _); by eexists.
Qed.

(** C5: when the decoded text contains "Serene:", the reply kept is the text
    after the first occurrence of "Serene:" without its leading and trailing
    whitespace; otherwise it is the decoded text itself. From
    "User: hello\nSerene: I'm doing well, thank you!" the reply kept is
    "I'm doing well, thank you!". *)
Theorem C5_extract_reply (reply : str) :
  (substring (py "Serene:") reply →
     ∃ pre post kept,
       reply = pre ++ py "Serene:" ++ post ∧
       (∀ j, (j < length pre)%nat → ¬ occurs_at (py "Serene:") reply j) ∧
       extract_reply reply = Some kept ∧
       kept = strip post ∧ trimmed post kept) ∧
  (¬ substring (py "Serene:") reply → extract_reply reply = Some reply) ∧
  extract_reply
    (py "User: hello" ++ [10%N] ++ py "Serene: I'm doing well, thank you!") =
  Some (py "I'm doing well, thank you!").
Proof.
  split_and!; [| |done].
  - intros Hsub. apply contains_substring in Hsub. unfold contains in Hsub.
    destruct (find reply (py "Serene:")) as [i|] eqn:F; [|done].
    destruct (find_Some _ _ _ F) as [[post Hocc] Hmin].
    assert (Hpost : drop (i + 7) reply = post).
    { rewrite <- drop_drop, Hocc. done. }
    exists (take i reply), post, (strip post). split_and!.
    + by rewrite <- Hocc, take_drop.
    + intros j Hj. apply Hmin. rewrite length_take in Hj. lia.
    + by rewrite (extract_reply_found _ _ F), Hpost.
    + done.
    + apply strip_trimmed.
  - intros Hno. unfold extract_reply.
    destruct (contains reply _) eqn:E; [|done].
    by apply contains_substring in E.
Qed.


(** The subscript of line 154 never fails: the route always returns a
    response. *)
Lemma get_bot_response_returns (g : globals) (req : request) :
  is_Some (get_bot_response g req).1.
Proof.
  unfold get_bot_response. case_bool_decide; [|by eexists].
  destruct (strip _) as [|c msg]; [by eexists|].
  destruct (contains_crisis_language _); [by eexists|].
  destruct (model g) as [m|], (tokenizer g) as [t|]; try by eexists.
  cbv zeta. destruct (extract_reply_total (decode t (generate m
    (encode t (build_prompt (c :: msg))) (generation_config t)))) as [r ->].
  by eexists.
Qed.

(** *** Accounts *)

Lemma signup_post (salt : str) (req : request) (users : list User.t)
    (u pw : str) :
  method req = POST →
  form req !! "username" = Some u →
  form req !! "password" = Some pw →
  signup salt req users =
  match head (filter_by_username (strip u) users) with
  | Some _ => (Text (py "Username already exists!") 400%Z, users)
  | None =>
      (Redirect ep_login,
       users ++ [User.mk (next_id users) (strip u)
                   (generate_password_hash salt pw)])
  end.
Proof. intros Hm Hu Hp. unfold signup. by rewrite Hm, Hu, Hp. Qed.

Lemma login_post (req : request) (users : list User.t) (u pw : str) :
  method req = POST →
  form req !! "username" = Some u →
  form req !! "password" = Some pw →
  login req users =
  match head (filter_by_username (strip u) users) with
  | Some user =>
      if check_password_hash (User.password user) pw
      then (Redirect ep_home, <["user_id" := User.id user]> (session req))
      else (Text (py "Invalid username or password.") 401%Z, session req)
  | None => (Text (py "Invalid username or password.") 401%Z, session req)
  end.
Proof. intros Hm Hu Hp. unfold login. by rewrite Hm, Hu, Hp. Qed.

(** A successful signup appends one row; the username was free. *)
Lemma signup_success (salt : str) (req : request) (users : list User.t)
    (u pw : str) :
  method req = POST →
  form req !! "username" = Some u →
  form req !! "password" = Some pw →
  (signup salt req users).1 = Redirect ep_login →
  filter_by_username (strip u) users = [] ∧
  (signup salt req users).2 =
    users ++ [User.mk (next_id users) (strip u)
                (generate_password_hash salt pw)].
Proof.
  intros Hm Hu Hp. rewrite (signup_post _ _ _ _ _ Hm Hu Hp).
  destruct (head _) eqn:E; [done|]. intros _.
  by apply head_None in E.
Qed.

Lemma filter_by_username_new (name hash : str) (n : Z) (users : list User.t) :
  filter_by_username name users = [] →
  filter_by_username name (users ++ [User.mk n name hash]) =
  [User.mk n name hash].
Proof.
  intros H. unfold filter_by_username in *. rewrite filter_app, H.
  rewrite filter_cons_True by done. done.
Qed.


Lemma signup_keeps_rows (salt name : str) (req : request)
    (users : list User.t) (x : User.t) :
  filter_by_username name users = [x] →
  filter_by_username name (signup salt req users).2 = [x].
Proof.
  intros Hx. unfold signup.
  destruct (method req); [done|].
  destruct (form req !! "username") as [raw|]; [|done].
  destruct (form req !! "password") as [pw|]; [|done]. cbv zeta.
  destruct (head (filter_by_username (strip raw) users)) eqn:E; [done|].
  apply head_None in E. simpl. unfold filter_by_username in *.
  rewrite filter_app, Hx. destruct (decide (strip raw = name)) as [Heq|Hne].
  - rewrite Heq, Hx in E. done.
  - by rewrite filter_cons_False.
Qed.

Lemma run_signups_keeps_rows (name : str) (reqs : list (str * request))
    (users : list User.t) (x : User.t) :
  filter_by_username name users = [x] →
  filter_by_username name (run_signups reqs users) = [x].
Proof.
  revert users; induction reqs as [|[salt req] reqs IH]; intros users Hx;
    [done|].
  simpl. apply IH. by apply signup_keeps_rows.
Qed.

(** After a successful signup, and whatever signups follow, the row created
    is the one row of its username. *)
Lemma signup_registers (users : list User.t) (salt u pw : str) (req : request)
    (later : list (str * request)) :
  method req = POST →
  form req !! "username" = Some u →
  form req !! "password" = Some pw →
  (signup salt req users).1 = Redirect ep_login →
  filter_by_username (strip u) (run_signups later (signup salt req users).2) =
  [User.mk (next_id users) (strip u) (generate_password_hash salt pw)].
Proof.
  intros Hm Hu Hp Hok.
  destruct (signup_success _ _ _ _ _ Hm Hu Hp Hok) as [Hfree Heq].
  apply run_signups_keeps_rows. rewrite Heq.
  by apply filter_by_username_new.
Qed.

Lemma filter_by_username_nil (name : str) (users : list User.t) :
  filter_by_username name users = [] ↔ name ∉ User.username <$> users.
Proof.
  unfold filter_by_username. split.
  - intros H Hin. apply list_elem_of_fmap in Hin as (u & -> & Hu).
    by apply (filter_nil_not_elem_of _ _ u) in H.
  - intros Hno. destruct (filter _ users) as [|u l] eqn:E; [done|].
    assert (Hu : u ∈ filter (λ u, User.username u = name) users)
      by (rewrite E; apply elem_of_cons; by left).
    apply list_elem_of_filter in Hu as [<- Hu]. destruct Hno.
    by apply list_elem_of_fmap_2.
Qed.

(** A signup with both fields and a username that no row has succeeds. *)
Lemma signup_free (salt : str) (req : request) (users : list User.t)
    (u pw : str) :
  method req = POST →
  form req !! "username" = Some u →
  form req !! "password" = Some pw →
  strip u ∉ User.username <$> users →
  signup salt req users =
    (Redirect ep_login,
     users ++ [User.mk (next_id users) (strip u)
                 (generate_password_hash salt pw)]).
Proof.
  intros Hm Hu Hp Hfree. rewrite (signup_post _ _ _ _ _ Hm Hu Hp).
  by rewrite (proj2 (filter_by_username_nil (strip u) users) Hfree).
Qed.

(** C6, amended: a signup with a username that no row has succeeds; after
    it, and whatever signups followed, a login with the same username and
    password fields succeeds: it redirects to the home page and stores the
    id of the account's row in the session; a login with the same username
    and a password that the stored hash does not check against is answered
    with status 401 and leaves the session as it was. *)
Theorem C6_signup_then_login
    (users : list User.t) (salt u pw pw' : str) (req lreq wreq : request)
    (later : list (str * request)) :
  method req = POST →
  form req !! "username" = Some u →
  form req !! "password" = Some pw →
  strip u ∉ User.username <$> users →
  method lreq = POST →
  form lreq !! "username" = Some u →
  form lreq !! "password" = Some pw →
  method wreq = POST →
  form wreq !! "username" = Some u →
  form wreq !! "password" = Some pw' →
  check_password_hash (generate_password_hash salt pw) pw' = false →
  let users' := run_signups later (signup salt req users).2 in
  (signup salt req users).1 = Redirect ep_login ∧
  login lreq users' =
    (Redirect ep_home, <["user_id" := next_id users]> (session lreq)) ∧
  authenticated (mkRequest POST ∅ (login lreq users').2) ∧
  login wreq users' =
    (Text (py "Invalid username or password.") 401%Z, session wreq).
Proof.
  intros Hm Hu Hp Hfree Hlm Hlu Hlp Hwm Hwu Hwp Hwrong users'.
  assert (Hok : (signup salt req users).1 = Redirect ep_login)
    by by rewrite (signup_free _ _ _ _ _ Hm Hu Hp Hfree).
  pose proof (signup_registers _ _ _ _ _ later Hm Hu Hp Hok) as Hrow.
  fold users' in Hrow.
  rewrite (login_post _ _ _ _ Hlm Hlu Hlp), (login_post _ _ _ _ Hwm Hwu Hwp).
  rewrite Hrow. simpl. rewrite check_generated, Hwrong.
  split_and!; [done | done | | done].
  unfold authenticated. simpl. rewrite lookup_insert_eq. by eexists.
Qed.

(** A different password is not always rejected: when the hasher accepts a
    password followed by a NUL character, as werkzeug's do, so does login. *)
Lemma login_accepts_nul_padded
    (users : list User.t) (salt u pw : str) (req wreq : request)
    (later : list (str * request)) :
  (∀ salt pw,
     forallb isascii pw = true → (length pw < 64)%nat →
     check_password_hash (generate_password_hash salt pw) (pw ++ [0%N]) = true) →
  forallb isascii pw = true → (length pw < 64)%nat →
  method req = POST →
  form req !! "username" = Some u →
  form req !! "password" = Some pw →
  strip u ∉ User.username <$> users →
  method wreq = POST →
  form wreq !! "username" = Some u →
  form wreq !! "password" = Some (pw ++ [0%N]) →
  login wreq (run_signups later (signup salt req users).2) =
    (Redirect ep_home, <["user_id" := next_id users]> (session wreq)).
Proof.
  intros Hnul Hascii Hlen Hm Hu Hp Hfree Hwm Hwu Hwp.
  assert (Hok : (signup salt req users).1 = Redirect ep_login)
    by by rewrite (signup_free _ _ _ _ _ Hm Hu Hp Hfree).
  rewrite (login_post _ _ _ _ Hwm Hwu Hwp).
  rewrite (signup_registers _ _ _ _ _ later Hm Hu Hp Hok). simpl.
  by rewrite Hnul.
Qed.

(** C7: after a signup that succeeded, and whatever signups followed, a
    signup whose username is the same after trimming is answered with status
    400 and the text "Username already exists!", the table is left as it
    was, and it holds exactly one row with that username. *)
Theorem C7_duplicate_username_rejected
    (users : list User.t) (salt salt2 u pw u2 pw2 : str) (req req2 : request)
    (later : list (str * request)) :
  method req = POST →
  form req !! "username" = Some u →
  form req !! "password" = Some pw →
  (signup salt req users).1 = Redirect ep_login →
  method req2 = POST →
  form req2 !! "username" = Some u2 →
  form req2 !! "password" = Some pw2 →
  strip u2 = strip u →
  let users' := run_signups later (signup salt req users).2 in
  signup salt2 req2 users' =
    (Text (py "Username already exists!") 400%Z, users') ∧
  length (filter_by_username (strip u) users') = 1%nat ∧
  length (filter_by_username (strip u) (signup salt2 req2 users').2) = 1%nat.
Proof.
  intros Hm Hu Hp Hok Hm2 Hu2 Hp2 Hsame users'.
  pose proof (signup_registers _ _ _ _ _ later Hm Hu Hp Hok) as Hrow.
  fold users' in Hrow.
  rewrite (signup_post _ _ _ _ _ Hm2 Hu2 Hp2), Hsame, Hrow. simpl.
  by rewrite Hrow.
Qed.

(** C9: a login with a username that no row has and a login with the
    username of a row but a password that does not check against its hash
    get the same response, status 401 with the text
    "Invalid username or password.", and both leave the session as it was. *)
Theorem C9_login_failures_alike
    (users : list User.t) (req1 req2 : request) (u1 pw1 u2 pw2 : str)
    (user : User.t) :
  method req1 = POST →
  form req1 !! "username" = Some u1 →
  form req1 !! "password" = Some pw1 →
  method req2 = POST →
  form req2 !! "username" = Some u2 →
  form req2 !! "password" = Some pw2 →
  strip u1 ∉ User.username <$> users →
  head (filter_by_username (strip u2) users) = Some user →
  check_password_hash (User.password user) pw2 = false →
  (login req1 users).1 = (login req2 users).1 ∧
  (login req1 users).1 = Text (py "Invalid username or password.") 401%Z ∧
  (login req1 users).2 = session req1 ∧
  (login req2 users).2 = session req2.
Proof.
  intros Hm1 Hu1 Hp1 Hm2 Hu2 Hp2 Hnone Hsome Hwrong.
  rewrite (login_post _ _ _ _ Hm1 Hu1 Hp1), (login_post _ _ _ _ Hm2 Hu2 Hp2).
  rewrite Hsome, Hwrong.
  destruct (head (filter_by_username (strip u1) users)) as [x|] eqn:E; [|done].
  exfalso. apply Hnone. apply head_Some_elem_of in E.
  unfold filter_by_username in E. apply list_elem_of_filter in E as [<- Hx].
  by apply list_elem_of_fmap_2.
Qed.

Lemma lstrip_all_space (s : str) : forallb isspace s = true → lstrip s = [].
Proof.
  induction s as [|c s IH]; [done|]. simpl. intros H.
  apply andb_true_iff in H as [Hc Hs]. rewrite Hc. by apply IH.
Qed.





(** ** Further properties of the code *)

Set Default Proof Using "Type".

(** *** Words and whitespace *)

Lemma split_from_words (s w : str) :
  forallb (λ c, negb (isspace c)) w = true →
  Forall is_word (split_from w s).
Proof.
  revert w; induction s as [|c s IH]; intros w Hw; simpl.
  - destruct w as [|a w]; [constructor|].
    constructor; [by split | constructor].
  - destruct (isspace c) eqn:E.
    + destruct w as [|a w]; [by apply IH|].
      constructor; [by split | by apply IH].
    + apply IH. rewrite forallb_app, Hw. simpl. by rewrite E.
Qed.

Lemma split_words (s : str) : Forall is_word (split s).
Proof. by apply split_from_words. Qed.

Lemma strip_nil_iff (s : str) : strip s = [] ↔ forallb isspace s = true.
Proof.
  split.
  - intros H. destruct (strip_trimmed s) as (l & r & Heq & Hl & Hr & _).
    rewrite H in Heq. rewrite Heq, forallb_app. simpl. by rewrite Hl, Hr.
  - intros H. unfold strip. by rewrite lstrip_all_space.
Qed.

Lemma split_from_leading (l s : str) :
  forallb isspace l = true → split_from [] (l ++ s) = split_from [] s.
Proof.
  induction l as [|c l IH]; [done|]. simpl. intros H.
  apply andb_true_iff in H as [Hc Hl]. rewrite Hc. by apply IH.
Qed.

Lemma split_from_all_space (w r : str) :
  forallb isspace r = true →
  split_from w r = match w with [] => [] | _ => [w] end.
Proof.
  revert w; induction r as [|c r IH]; intros w H; [done|]. simpl in *.
  apply andb_true_iff in H as [Hc Hr]. rewrite Hc.
  destruct w; by rewrite IH.
Qed.

Lemma split_from_trailing (w s r : str) :
  forallb isspace r = true → split_from w (s ++ r) = split_from w s.
Proof.
  intros Hr. revert w; induction s as [|c s IH]; intros w; simpl.
  - by apply split_from_all_space.
  - destruct (isspace c); [|by apply IH]. destruct w; by rewrite IH.
Qed.

Lemma split_strip (s : str) : split (strip s) = split s.
Proof.
  destruct (strip_trimmed s) as (l & r & Heq & Hl & Hr & _).
  unfold split. rewrite Heq at 2.
  by rewrite split_from_leading, split_from_trailing.
Qed.

Lemma split_from_nonempty (w s : str) : w ≠ [] → split_from w s ≠ [].
Proof.
  revert w; induction s as [|c s IH]; intros w Hw; simpl.
  - by destruct w.
  - destruct (isspace c); [by destruct w|]. apply IH. by destruct w.
Qed.

Lemma join_cons_ne (sep w : str) (l : list str) :
  l ≠ [] → join sep (w :: l) = w ++ sep ++ join sep l.
Proof. by destruct l. Qed.

Lemma last_cons_nonspace (c : char) (s : str) :
  (∀ d, last (c :: s) = Some d → isspace d = false) →
  s ≠ [] → ∀ d, last s = Some d → isspace d = false.
Proof. intros H Hs d Hd. apply H. destruct s; [done|]. by rewrite last_cons_cons. Qed.

(** On a text that does not end in whitespace, collapsing the whitespace
    runs and joining the words by single spaces agree. *)
Lemma sub_ws_from_join_split (s : str) :
  (∀ d, last s = Some d → isspace d = false) →
  (∀ w, w ≠ [] →
     w ++ sub_ws_from false s = join (py " ") (split_from w s)) ∧
  (s ≠ [] →
     sub_ws_from true s = join (py " ") (split_from [] s) ∧
     split_from [] s ≠ []).
Proof.
  induction s as [|c s IH]; intros Hlast.
  - split; [|done]. intros w Hw. simpl. rewrite app_nil_r. by destruct w.
  - destruct (decide (s = [])) as [->|Hs].
    + assert (Hc : isspace c = false) by by apply Hlast.
      split.
      * intros w Hw. simpl. rewrite Hc.
        destruct (w ++ [c]) eqn:E; [by destruct w|]. done.
      * intros _. simpl. by rewrite Hc.
    + destruct (IH (last_cons_nonspace _ _ Hlast Hs)) as [IH1 IH2].
      destruct (IH2 Hs) as [IH2a IH2b]. simpl.
      destruct (isspace c) eqn:Hc.
      * split; [|done]. intros w Hw.
        destruct w as [|a w]; [done|].
        rewrite join_cons_ne by done. by rewrite IH2a.
      * split.
        -- intros w Hw. rewrite <- IH1 by by destruct w.
           by rewrite <- app_assoc.
        -- intros _. rewrite <- IH1 by done. split; [done|].
           by apply split_from_nonempty.
Qed.

Lemma re_sub_ws_trimmed (s : str) :
  (∀ c, head s = Some c → isspace c = false) →
  (∀ c, last s = Some c → isspace c = false) →
  re_sub_ws s = join (py " ") (split s).
Proof.
  intros Hh Hl. destruct s as [|c s]; [done|].
  unfold re_sub_ws, split. simpl. rewrite (Hh c) by done.
  destruct (decide (s = [])) as [->|Hs]; [done|].
  destruct (sub_ws_from_join_split s (last_cons_nonspace _ _ Hl Hs)) as [H _].
  by rewrite <- H.
Qed.

Lemma sub_ws_from_idem (s : str) :
  (∀ b, sub_ws_from false (sub_ws_from b s) = sub_ws_from b s) ∧
  sub_ws_from true (sub_ws_from true s) = sub_ws_from true s.
Proof.
  induction s as [|c s [IH1 IH2]]; [done|]. simpl.
  destruct (isspace c) eqn:Hc.
  - split; [|done]. intros [|]; [apply IH1|].
    change (sub_ws_from false (space :: ?r)) with (space :: sub_ws_from true r).
    by rewrite IH2.
  - simpl. rewrite Hc. split; [intros _|]; by rewrite (IH1 false).
Qed.

Lemma re_sub_ws_idem (s : str) : re_sub_ws (re_sub_ws s) = re_sub_ws s.
Proof. apply sub_ws_from_idem. Qed.

Lemma join_snoc_app (sep w x : str) (l : list str) :
  join sep (l ++ [w]) ++ x = join sep (l ++ [w ++ x]).
Proof.
  induction l as [|a l IH]; [done|]. rewrite <- !app_comm_cons.
  rewrite (join_cons_ne sep a (l ++ [w])) by by destruct l.
  rewrite (join_cons_ne sep a (l ++ [w ++ x])) by by destruct l.
  by rewrite <- !app_assoc, IH.
Qed.

(** The result of the formatter on more than 60 words, as a list of 60
    words: the last one carries the dots. *)
Lemma format_reply_long (text : str) :
  (60 < length (split text))%nat →
  ∃ ws, format_reply text = join (py " ") ws ∧
        Forall is_word ws ∧ length ws = 60%nat.
Proof.
  intros Hlen. rewrite format_reply_words.
  rewrite (proj2 (Nat.ltb_lt _ _) Hlen).
  pose proof (split_words text) as Hw.
  assert (Htake : length (take 60 (split text)) = 60%nat)
    by (rewrite length_take; lia).
  apply Forall_take with (n := 60%nat) in Hw.
  destruct (take 60 (split text)) as [|a l] using rev_ind; [done|].
  clear IHl. rewrite join_snoc_app. exists (l ++ [a ++ py "..."]).
  split; [done|]. rewrite length_app in *. split; [|done].
  apply Forall_app in Hw as [Hl Ha]. apply Forall_app. split; [done|].
  constructor; [|constructor]. apply Forall_singleton in Ha as [Hne Ha].
  split; [by destruct a|]. rewrite forallb_app, Ha. done.
Qed.


Lemma format_reply_word_count (text : str) :
  (length (split (format_reply text)) ≤ 60)%nat.
Proof.
  destruct (decide (60 < length (split text))%nat) as [Hlong|Hshort].
  - destruct (format_reply_long text Hlong) as (ws & -> & Hws & Hlen).
    rewrite split_join by done. lia.
  - rewrite format_reply_words.
    rewrite (proj2 (Nat.ltb_ge _ _) (proj1 (Nat.nlt_ge _ _) Hshort)).
    rewrite split_re_sub_ws. lia.
Qed.

(** X1: whatever the text is, the formatted reply has at most 60 words,
    its whitespace is single spaces only, and formatting it again changes
    nothing. *)
Theorem format_reply_bounded_and_stable (text : str) :
  (length (split (format_reply text)) ≤ 60)%nat ∧
  single_spaced (format_reply text) = true ∧
  format_reply (format_reply text) = format_reply text.
Proof.
  split; [apply format_reply_word_count|].
  destruct (decide (60 < length (split text))%nat) as [Hlong|Hshort].
  - destruct (format_reply_long text Hlong) as (ws & -> & Hws & Hlen).
    split.
    + rewrite <- (sub_ws_from_join false ws) by done.
      apply single_spaced_sub_ws.
    + rewrite format_reply_join by done. by rewrite Hlen.
  - assert (Hf : format_reply text = re_sub_ws text).
    { rewrite format_reply_words.
      by rewrite (proj2 (Nat.ltb_ge _ _) (proj1 (Nat.nlt_ge _ _) Hshort)). }
    rewrite Hf. split.
    + apply single_spaced_sub_ws.
    + rewrite format_reply_words, split_re_sub_ws, re_sub_ws_idem.
      by rewrite (proj2 (Nat.ltb_ge _ _) (proj1 (Nat.nlt_ge _ _) Hshort)).
Qed.

(** X2: on a text without leading and trailing whitespace, as the reply is
    after line 154, the formatted reply is made of the words alone: the
    words joined by single spaces, cut after 60 words with "..." appended. *)
Theorem format_reply_of_stripped (text : str) :
  format_reply (strip text) =
  if (60 <? length (split text))%nat
  then join (py " ") (take 60 (split text)) ++ py "..."
  else join (py " ") (split text).
Proof.
  rewrite format_reply_words, split_strip.
  destruct (60 <? length (split text))%nat; [done|].
  destruct (strip_trimmed text) as (l & r & _ & _ & _ & Hh & Hl).
  by rewrite re_sub_ws_trimmed, split_strip.
Qed.


(** *** The prompt and the extraction of the reply *)

Lemma find_first (s sub : str) (i : nat) :
  occurs_at sub s i →
  (∀ j, (j < i)%nat → ¬ occurs_at sub s j) →
  find s sub = Some i.
Proof.
  intros Hocc Hmin. destruct (find s sub) as [k|] eqn:F.
  - apply find_Some in F as [Hk Hkmin]. f_equal.
    destruct (Nat.lt_trichotomy k i) as [Hlt|[->|Hgt]]; [|done|].
    + by destruct (Hmin k Hlt).
    + by destruct (Hkmin i Hgt).
  - by destruct (find_None _ _ F i).
Qed.

(** An occurrence of [sep] that starts in [m] ends in [m], when the
    character after [m] is not one of [sep]. *)
Lemma occurs_at_before (sep m rest : str) (c : char) (j : nat) :
  c ∉ sep → (j ≤ length m)%nat →
  occurs_at sep (m ++ c :: rest) j → occurs_at sep m j.
Proof.
  intros Hc Hj [post H]. rewrite drop_app_le in H by done.
  apply app_eq_inv in H as [(k & Hk & _)|(k & Hk & Hpost)].
  - by exists k.
  - destruct k as [|c' k].
    + exists []. by rewrite Hk, !app_nil_r.
    + injection Hpost as <- _. destruct Hc. rewrite Hk.
      apply elem_of_app. right. apply elem_of_cons. by left.
Qed.

Lemma occurs_at_app_add (sep p s : str) (j : nat) :
  occurs_at sep (p ++ s) (length p + j) ↔ occurs_at sep s j.
Proof. unfold occurs_at. by rewrite drop_app_add. Qed.

Lemma no_label_in_user (x : str) (j : nat) :
  (j < 6)%nat → ¬ occurs_at (py "Serene:") (py "User: " ++ x) j.
Proof.
  intros Hj [post H].
  do 6 (destruct j as [|j]; [vm_compute in H; discriminate H|]). lia.
Qed.

Lemma newline_not_in_label : 10%N ∉ py "Serene:".
Proof. by apply (bool_decide_eq_false_1 (10%N ∈ py "Serene:")). Qed.

(** Where the label is first found in the decoded text when it starts with
    the prompt: at the first occurrence in the message, or else at the label
    of the prompt. *)
Lemma find_label_after_prompt (msg cont : str) (i : nat) :
  (i ≤ S (length msg))%nat →
  (∀ j, (j < i)%nat → ¬ occurs_at (py "Serene:") msg j) →
  occurs_at (py "Serene:") (msg ++ 10%N :: py "Serene:" ++ cont) i →
  find (build_prompt msg ++ cont) (py "Serene:") = Some (6 + i)%nat.
Proof.
  intros Hi Hmin Hocc.
  assert (Heq : build_prompt msg ++ cont =
                py "User: " ++ msg ++ 10%N :: py "Serene:" ++ cont).
  { unfold build_prompt. by rewrite <- !app_assoc. }
  rewrite Heq. apply find_first.
  - by apply (occurs_at_app_add _ (py "User: ")).
  - intros j Hj Hocc'. destruct (decide (j < 6)%nat) as [Hlt|Hge].
    + by apply no_label_in_user in Hocc'.
    + replace j with (length (py "User: ") + (j - 6))%nat in Hocc'
        by (change (length (py "User: ")) with 6%nat; lia).
      apply occurs_at_app_add in Hocc'.
      apply occurs_at_before in Hocc'; [|apply newline_not_in_label|lia].
      apply (Hmin (j - 6)%nat); [lia | done].
Qed.

Lemma extract_reply_after_prompt (msg cont : str) :
  ¬ substring (py "Serene:") msg →
  extract_reply (build_prompt msg ++ cont) = Some (strip cont).
Proof.
  intros Hno.
  assert (F : find (build_prompt msg ++ cont) (py "Serene:") =
              Some (6 + S (length msg))%nat).
  { apply find_label_after_prompt; [done| |].
    - intros j _ Hocc. apply Hno. apply occurs_at_substring. eauto.
    - exists cont. replace (S (length msg)) with (length msg + 1)%nat by lia.
      by rewrite drop_app_add. }
  rewrite (extract_reply_found _ _ F). do 2 f_equal.
  apply drop_app_length'. unfold build_prompt. rewrite !length_app.
  change (length (py "User: ")) with 6%nat.
  change (length (py "Serene:")) with 7%nat. simpl. lia.
Qed.


Lemma extract_reply_inside_message (a b cont : str) :
  (∀ j, (j < length a)%nat →
        ¬ occurs_at (py "Serene:") (a ++ py "Serene:" ++ b) j) →
  extract_reply (build_prompt (a ++ py "Serene:" ++ b) ++ cont) =
  Some (strip (b ++ [10%N] ++ py "Serene:" ++ cont)).
Proof.
  intros Hmin. set (msg := a ++ py "Serene:" ++ b).
  assert (F : find (build_prompt msg ++ cont) (py "Serene:") =
              Some (6 + length a)%nat).
  { apply find_label_after_prompt; [|done|].
    - subst msg. rewrite length_app. lia.
    - exists (b ++ 10%N :: py "Serene:" ++ cont). subst msg.
      rewrite <- !app_assoc. by rewrite drop_app_length. }
  rewrite (extract_reply_found _ _ F). do 2 f_equal.
  replace (build_prompt msg ++ cont) with
    ((py "User: " ++ a ++ py "Serene:") ++
     (b ++ [10%N] ++ py "Serene:" ++ cont)).
  - apply drop_app_length'. rewrite !length_app.
    change (length (py "User: ")) with 6%nat.
    change (length (py "Serene:")) with 7%nat. lia.
  - unfold build_prompt. subst msg. by rewrite <- !app_assoc.
Qed.

(** X3: the extraction on a decoded text that is the prompt followed by a
    continuation. When the user's message does not contain "Serene:", the
    reply kept is the continuation, trimmed: the echoed prompt is discarded.
    When the message itself contains "Serene:", the split of line 154 happens
    inside the echoed message: the reply kept is the rest of the user's
    message after the first "Serene:", the label of the prompt and the
    continuation. *)
Theorem extract_reply_on_echoed_prompt (msg cont : str) :
  (¬ substring (py "Serene:") msg →
     extract_reply (build_prompt msg ++ cont) = Some (strip cont)) ∧
  (∀ a b, msg = a ++ py "Serene:" ++ b →
     (∀ j, (j < length a)%nat → ¬ occurs_at (py "Serene:") msg j) →
     extract_reply (build_prompt msg ++ cont) =
       Some (strip (b ++ [10%N] ++ py "Serene:" ++ cont))).
Proof.
  split; [apply extract_reply_after_prompt|].
  intros a b -> Hmin. by apply extract_reply_inside_message.
Qed.

(** X4: the whole route on an ordinary message. For an authenticated
    request whose trimmed message is not empty, has no crisis phrase and does
    not contain "Serene:", with a tokenizer and a model loaded whose decoded
    output is the prompt followed by a continuation: the response is the
    continuation, trimmed and formatted, with status 200; the tokenizer, the
    model and the decoder are each called once, on the prompt built from the
    trimmed message. *)
Theorem chat_reply_end_to_end
    (g : globals) (req : request) (t : Tokenizer) (md : Model) (cont : str) :
  authenticated req →
  message_of req ≠ [] →
  contains_crisis_language (message_of req) = false →
  ¬ substring (py "Serene:") (message_of req) →
  tokenizer g = Some t →
  model g = Some md →
  let prompt := build_prompt (message_of req) in
  let output := generate md (encode t prompt) (generation_config t) in
  decode t output = prompt ++ cont →
  (get_bot_response g req).1 = Some (Text (format_reply (strip cont)) 200%Z) ∧
  generation_calls (get_bot_response g req).2 =
    [EvTokenize prompt; EvGenerate (encode t prompt); EvDecode output] ∧
  (length (split (format_reply (strip cont))) ≤ 60)%nat.
Proof.
  intros Hauth Hne Hc Hno Ht Hm prompt output Hecho.
  rewrite get_bot_response_message by done.
  destruct (message_of req) as [|c m] eqn:Hmsg; [done|].
  rewrite Hc, Ht, Hm. cbv zeta. fold prompt. fold output.
  rewrite Hecho. subst prompt.
  rewrite extract_reply_after_prompt by done.
  split_and!; [done | done | apply format_reply_word_count].
Qed.


(** *** The crisis filter on ASCII messages *)

Lemma lower_ascii (m : str) :
  forallb isascii m = true → lower unicode_lower m = ascii_lower <$> m.
Proof. intros H. unfold lower. by rewrite H. Qed.

Lemma crisis_part_detected (word pre mid post : str) :
  forallb isascii (pre ++ mid ++ post) = true →
  word ∈ crisis_words → ascii_lower <$> mid = word →
  contains_crisis_language (pre ++ mid ++ post) = true.
Proof.
  intros Hascii Hin Hmid. rewrite contains_crisis_language_true.
  rewrite lower_ascii by done. exists word. split; [done|].
  exists (ascii_lower <$> pre), (ascii_lower <$> post).
  by rewrite !fmap_app, Hmid.
Qed.

(** X5: on a message of ASCII characters the crisis filter answers true
    exactly when some part of the message is one of the five phrases up to
    the case of its letters: no word boundary is looked at, and nothing else
    triggers it. *)
Theorem contains_crisis_language_ascii (m : str) :
  forallb isascii m = true →
  contains_crisis_language m = true ↔
  ∃ word pre mid post,
    word ∈ crisis_words ∧ m = pre ++ mid ++ post ∧ ascii_lower <$> mid = word.
Proof.
  intros Hascii. split.
  - rewrite contains_crisis_language_true, lower_ascii by done.
    intros (word & Hin & pre' & post' & Heq).
    apply fmap_app_inv in Heq as (pre & rest & Hpre & Hrest & ->).
    symmetry in Hrest.
    apply fmap_app_inv in Hrest as (mid & post & Hmid & Hpost & ->).
    by exists word, pre, mid, post.
  - intros (word & pre & mid & post & Hin & -> & Hmid).
    by apply (crisis_part_detected word).
Qed.

Lemma isspace_not_upper (c : char) :
  (65 ≤ c)%N → (c ≤ 90)%N → isspace c = false.
Proof.
  intros H1 H2. destruct (isspace c) eqn:E; [|done]. unfold isspace in E.
  repeat match goal with
         | H : _ || _ = true |- _ => apply orb_true_iff in H as [H|H]
         | H : _ && _ = true |- _ => apply andb_true_iff in H as [? ?]
         end;
    rewrite ?N.leb_le, ?N.eqb_eq in *; lia.
Qed.

Lemma isspace_ascii_lower (c : char) : isspace (ascii_lower c) = false → isspace c = false.
Proof.
  unfold ascii_lower. destruct ((65 <=? c)%N && (c <=? 90)%N) eqn:E; [|done].
  intros _. apply andb_true_iff in E as [H1 H2].
  apply isspace_not_upper; by apply N.leb_le.
Qed.

Lemma crisis_word_ends (word : str) :
  word ∈ crisis_words →
  ∃ x y, head word = Some x ∧ last word = Some y ∧
         isspace x = false ∧ isspace y = false.
Proof.
  unfold crisis_words. rewrite !elem_of_cons, elem_of_nil.
  intros [->|[->|[->|[->|[->|[]]]]]]; by eexists _, _.
Qed.

Lemma head_fmap_lower (mid : str) (x : char) :
  head (ascii_lower <$> mid) = Some x → isspace x = false →
  ∀ c, head mid = Some c → isspace c = false.
Proof.
  destruct mid as [|c mid]; [done|]. intros [= <-] Hx ? [= <-].
  by apply isspace_ascii_lower.
Qed.

Lemma last_fmap_lower (mid : str) (y : char) :
  last (ascii_lower <$> mid) = Some y → isspace y = false →
  ∀ d, last mid = Some d → isspace d = false.
Proof.
  intros Hy Hsp d Hd. apply last_Some in Hd as [mid' ->].
  rewrite fmap_app in Hy. simpl in Hy. rewrite last_snoc in Hy.
  injection Hy as <-.
  by apply isspace_ascii_lower.
Qed.

Lemma forallb_isspace_elem (l : str) (c : char) :
  forallb isspace l = true → c ∈ l → isspace c = true.
Proof.
  intros H Hc. rewrite forallb_forall in H. apply H. by apply list_elem_of_In.
Qed.

(** A part of a text that begins and ends with a non-whitespace character
    lies inside the trimmed text. *)
Lemma inside_trimmed (l k r pre mid post : str) :
  l ++ k ++ r = pre ++ mid ++ post →
  forallb isspace l = true → forallb isspace r = true →
  mid ≠ [] →
  (∀ c, head mid = Some c → isspace c = false) →
  (∀ d, last mid = Some d → isspace d = false) →
  ∃ pre' post', k = pre' ++ mid ++ post'.
Proof.
  intros Heq Hl Hr Hne Hh Hla.
  assert (∃ pre', k ++ r = pre' ++ mid ++ post) as [pre' Hk].
  { apply app_eq_inv in Heq as [(k0 & Hl' & Hmid)|(k0 & Hpre & Hk)]; [|by eauto].
    destruct k0 as [|x k0]; [by exists []|]. exfalso.
    destruct mid as [|c mid]; [done|]. injection Hmid as -> _.
    assert (Hx : isspace x = true).
    { apply (forallb_isspace_elem l); [done|]. rewrite Hl'.
      apply elem_of_app. right. apply elem_of_cons. by left. }
    rewrite (Hh x) in Hx; done. }
  rewrite (app_assoc pre') in Hk.
  apply app_eq_inv in Hk as [(k0 & Hk & _)|(k0 & Hk & Hr')].
  - exists pre', k0. by rewrite Hk, <- app_assoc.
  - destruct k0 as [|x k0 _] using rev_ind.
    + exists pre', []. rewrite app_nil_r in *. by rewrite Hk.
    + exfalso. destruct mid as [|d mid _] using rev_ind; [done|].
      rewrite !app_assoc in Hk. apply app_inj_tail in Hk as [_ ->].
      assert (Hx : isspace x = true).
      { apply (forallb_isspace_elem r); [done|]. rewrite Hr'.
        apply elem_of_app. left. apply elem_of_app. right.
        apply elem_of_cons. by left. }
      rewrite (Hla x) in Hx; [done | by rewrite last_snoc].
Qed.

(** X6: the route on the message as typed. An authenticated request whose
    message is made of ASCII characters and contains a crisis phrase in any
    letter case, with anything before and after it, any surrounding
    whitespace included, is answered with the safety message, and no
    statement of the generation adapter is executed. *)
Theorem crisis_phrase_in_raw_message
    (g : globals) (req : request) (raw pre mid post word : str) :
  authenticated req →
  form req !! "msg" = Some raw →
  forallb isascii raw = true →
  raw = pre ++ mid ++ post →
  word ∈ crisis_words →
  ascii_lower <$> mid = word →
  (get_bot_response g req).1 = Some (Text safety_message 200%Z) ∧
  generation_calls (get_bot_response g req).2 = [].
Proof.
  intros Hauth Hmsg Hascii Hraw Hin Hmid.
  destruct (crisis_word_ends word Hin) as (x & y & Hx & Hy & Hxs & Hys).
  destruct (strip_trimmed raw) as (l & r & Heq & Hl & Hr & _).
  assert (Hne : mid ≠ []) by (intros ->; by subst word).
  rewrite <- Hmid in Hx, Hy.
  destruct (inside_trimmed l (strip raw) r pre mid post) as (pre' & post' & Hk);
    [by rewrite <- Heq | done | done | done
    | by apply (head_fmap_lower mid x) | by apply (last_fmap_lower mid y) |].
  assert (Hm : message_of req = strip raw)
    by (unfold message_of, str in *; by rewrite Hmsg).
  assert (Hascii' : forallb isascii (strip raw) = true).
  { rewrite Heq, !forallb_app in Hascii.
    by apply andb_true_iff in Hascii as [_ [? _]%andb_true_iff]. }
  assert (Hc : contains_crisis_language (message_of req) = true).
  { rewrite Hm, Hk. apply (crisis_part_detected word); [|done|done].
    by rewrite <- Hk. }
  rewrite get_bot_response_message by done.
  destruct (message_of req) as [|c m] eqn:E.
  - symmetry in Hm. rewrite Hk in Hm. by destruct pre', mid.
  - by rewrite Hc.
Qed.


(** *** The users table *)

Lemma signup_cases (salt : str) (req : request) (users : list User.t) :
  (∃ u pw,
     method req = POST ∧
     form req !! "username" = Some u ∧ form req !! "password" = Some pw ∧
     (strip u ∉ User.username <$> users) ∧
     signup salt req users =
       (Redirect ep_login,
        users ++ [User.mk (next_id users) (strip u)
                    (generate_password_hash salt pw)])) ∨
  ((signup salt req users).1 ≠ Redirect ep_login ∧
   (signup salt req users).2 = users).
Proof.
  unfold signup. destruct (method req); [by right|].
  destruct (form req !! "username") as [u|] eqn:Hu; [|by right].
  destruct (form req !! "password") as [pw|] eqn:Hp; [|by right].
  cbv zeta. destruct (head _) eqn:E; [by right|].
  apply head_None, filter_by_username_nil in E. left. by exists u, pw.
Qed.

(** X7: a signup changes the table exactly when it answers with the
    redirect to the login page: it then appends one row, with the next id,
    the trimmed username, which no row had, and the hash of the password;
    with any other answer the table is the one before. No row is ever changed
    or removed. *)
Theorem signup_appends_or_keeps
    (salt : str) (req : request) (users : list User.t) :
  ((signup salt req users).1 = Redirect ep_login →
     ∃ u pw,
       method req = POST ∧
       form req !! "username" = Some u ∧ form req !! "password" = Some pw ∧
       (strip u ∉ User.username <$> users) ∧
       (signup salt req users).2 =
         users ++ [User.mk (next_id users) (strip u)
                     (generate_password_hash salt pw)]) ∧
  ((signup salt req users).1 ≠ Redirect ep_login →
     (signup salt req users).2 = users).
Proof.
  destruct (signup_cases salt req users)
    as [(u & pw & Hm & Hu & Hp & Hfree & E)|[Hno Hsame]].
  - rewrite E. split; [|done]. intros _. by exists u, pw.
  - split; [done|]. by intros _.
Qed.

Lemma signup_keeps_unique (salt : str) (req : request) (users : list User.t) :
  NoDup (User.username <$> users) →
  NoDup (User.username <$> (signup salt req users).2).
Proof.
  intros Hnd. destruct (signup_cases salt req users)
    as [(u & pw & _ & _ & _ & Hfree & ->)|[_ ->]]; [|done].
  simpl. rewrite fmap_app. apply NoDup_app. split_and!; [done| |].
  - intros x Hx Hin. simpl in Hin. apply list_elem_of_singleton in Hin.
    by subst x.
  - simpl. apply NoDup_singleton.
Qed.

(** X8: the usernames of the table stay pairwise different under every
    sequence of signup requests, whatever the requests are. *)
Theorem usernames_stay_unique
    (reqs : list (str * request)) (users : list User.t) :
  NoDup (User.username <$> users) →
  NoDup (User.username <$> run_signups reqs users).
Proof.
  revert users; induction reqs as [|[salt req] reqs IH]; intros users Hnd;
    [done|].
  simpl. apply IH. by apply signup_keeps_unique.
Qed.

Lemma max_id_seq (s n : nat) :
  foldr Z.max 0%Z (Z.of_nat <$> seq s n) =
  match n with O => 0%Z | S _ => Z.of_nat (s + n - 1) end.
Proof.
  revert s; induction n as [|n IH]; intros s; [done|].
  simpl. rewrite IH. destruct n; lia.
Qed.

Lemma next_id_seq (users : list User.t) :
  User.id <$> users = Z.of_nat <$> seq 1 (length users) →
  next_id users = Z.of_nat (S (length users)).
Proof.
  intros H. unfold next_id. rewrite H, max_id_seq.
  destruct (length users); lia.
Qed.

Lemma signup_keeps_ids (salt : str) (req : request) (users : list User.t) :
  User.id <$> users = Z.of_nat <$> seq 1 (length users) →
  User.id <$> (signup salt req users).2 =
  Z.of_nat <$> seq 1 (length (signup salt req users).2).
Proof.
  intros Hids. destruct (signup_cases salt req users)
    as [(u & pw & _ & _ & _ & _ & ->)|[_ ->]]; [|done].
  simpl. rewrite length_app, fmap_app, Hids. simpl length.
  rewrite seq_app, fmap_app. simpl. by rewrite next_id_seq.
Qed.

(** X9: starting from the empty table, the ids of the rows are 1, 2, 3, ...
    in the order of the rows, after every sequence of signup requests; in
    particular no two rows share an id. *)
Theorem ids_count_from_one (reqs : list (str * request)) :
  User.id <$> run_signups reqs [] =
    Z.of_nat <$> seq 1 (length (run_signups reqs [])) ∧
  NoDup (User.id <$> run_signups reqs []).
Proof.
  assert (H : ∀ users,
    User.id <$> users = Z.of_nat <$> seq 1 (length users) →
    User.id <$> run_signups reqs users =
      Z.of_nat <$> seq 1 (length (run_signups reqs users))).
  { induction reqs as [|[salt req] reqs IH]; intros users Hids; [done|].
    simpl. apply IH. by apply signup_keeps_ids. }
  split; [by apply H|]. rewrite H by done.
  apply NoDup_fmap_2; [apply _ | apply NoDup_ListNoDup, seq_NoDup].
Qed.


(** *** Login, the session and the protected routes *)

Lemma login_cases (req : request) (users : list User.t) :
  (∃ u pw user,
     method req = POST ∧
     form req !! "username" = Some u ∧ form req !! "password" = Some pw ∧
     user ∈ users ∧ User.username user = strip u ∧
     check_password_hash (User.password user) pw = true ∧
     login req users =
       (Redirect ep_home, <["user_id" := User.id user]> (session req))) ∨
  ((login req users).1 ≠ Redirect ep_home ∧
   (login req users).2 = session req).
Proof.
  unfold login. destruct (method req); [by right|].
  destruct (form req !! "username") as [u|] eqn:Hu; [|by right].
  destruct (form req !! "password") as [pw|] eqn:Hp; [|by right].
  cbv zeta. destruct (head _) as [user|] eqn:E; [|by right].
  destruct (check_password_hash _ pw) eqn:Hc; [|by right].
  left. exists u, pw, user. apply head_Some_elem_of in E.
  unfold filter_by_username in E. apply list_elem_of_filter in E as [Hn Hin].
  done.
Qed.

(** X10: a login answers with the redirect to the home page only for a POST
    with both fields for which the table has a row with the trimmed username
    whose stored hash checks against the password typed; the session then
    holds the id of that row under "user_id". With any other answer the
    session is the one of the request. *)
Theorem login_needs_matching_row (req : request) (users : list User.t) :
  ((login req users).1 = Redirect ep_home →
     ∃ u pw user,
       method req = POST ∧
       form req !! "username" = Some u ∧ form req !! "password" = Some pw ∧
       user ∈ users ∧ User.username user = strip u ∧
       check_password_hash (User.password user) pw = true ∧
       (login req users).2 = <["user_id" := User.id user]> (session req)) ∧
  ((login req users).1 ≠ Redirect ep_home →
     (login req users).2 = session req).
Proof.
  destruct (login_cases req users)
    as [(u & pw & user & Hm & Hu & Hp & Hin & Hn & Hc & E)|[Hno Hsame]].
  - rewrite E. split; [|done]. intros _. by exists u, pw, user.
  - split; [done|]. by intros _.
Qed.

Lemma chat_gate_passed (g : globals) (req : request) :
  authenticated req →
  (get_bot_response g req).1 ≠ Some (Text (py "Please log in to chat.") 401%Z) ∧
  ∃ tr, (get_bot_response g req).2 = EvSessionCheck :: EvReadMessage :: tr.
Proof.
  intros Hauth. rewrite get_bot_response_message by done.
  split; [|by eexists].
  destruct (message_of req); [done|]. simpl.
  destruct (contains_crisis_language _); [done|]. simpl.
  destruct (model g), (tokenizer g); try done. simpl.
  by destruct (extract_reply _).
Qed.

(** X11: after a login that answered with the redirect to the home page,
    every request that carries the session it returned gets the chat page
    from the home route and passes the session check of the chat route: its
    answer is not the 401 of the gate. *)
Theorem login_opens_routes
    (g : globals) (req next : request) (users : list User.t) :
  (login req users).1 = Redirect ep_home →
  session next = (login req users).2 →
  home next = Render index_html ∧
  (get_bot_response g next).1 ≠
    Some (Text (py "Please log in to chat.") 401%Z) ∧
  ∃ tr, (get_bot_response g next).2 = EvSessionCheck :: EvReadMessage :: tr.
Proof.
  intros Hok Hs.
  destruct (login_cases req users)
    as [(u & pw & user & _ & _ & _ & _ & _ & _ & E)|[Hno _]]; [|done].
  rewrite E in Hs. simpl in Hs.
  assert (Hauth : authenticated next).
  { unfold authenticated. rewrite Hs, lookup_insert_eq. by eexists. }
  split; [|by apply chat_gate_passed].
  unfold home. by rewrite bool_decide_eq_true_2.
Qed.

(** X12: logout answers with the redirect to the login page and an empty
    session, whatever the request and its session are; every request that
    carries this session is sent to the login page by the home route and gets
    the 401 of the chat route, with no other statement executed. *)
Theorem logout_closes_routes (g : globals) (req next : request) :
  session next = (logout req).2 →
  (logout req).1 = Redirect ep_login ∧
  home next = Redirect ep_login ∧
  get_bot_response g next =
    (Some (Text (py "Please log in to chat.") 401%Z), [EvSessionCheck]).
Proof.
  intros Hs. simpl in Hs.
  assert (Hno : ¬ is_Some (session next !! "user_id")).
  { rewrite Hs, lookup_empty. by intros [x Hx]. }
  split; [done|]. unfold home, get_bot_response.
  by rewrite !bool_decide_eq_false_2.
Qed.

(** X13: for an authenticated request the chat route answers with the
    prompt to type something, and executes nothing after the empty-input
    check, exactly when the "msg" field is absent or made of whitespace
    only. *)
Theorem blank_message_prompted (g : globals) (req : request) :
  authenticated req →
  forallb isspace (default [] (form req !! "msg")) = true ↔
  get_bot_response g req =
    (Some (Text empty_message 200%Z),
     [EvSessionCheck; EvReadMessage; EvEmptyCheck]).
Proof.
  intros Hauth. rewrite <- strip_nil_iff.
  rewrite get_bot_response_message by done.
  fold (message_of req). destruct (message_of req) as [|c m]; [done|].
  split; [done|]. intros H. apply (f_equal snd) in H. discriminate H.
Qed.

(** X14: with the globals set by the loading of lines 41-51, an
    authenticated request with a message that is not blank and has no crisis
    phrase reaches the generation adapter exactly when the loading
    succeeded; after a failed loading it is answered with the unavailability
    message. *)
Theorem generation_iff_loaded
    (loaded : option (Tokenizer * Model)) (req : request) :
  authenticated req →
  message_of req ≠ [] →
  contains_crisis_language (message_of req) = false →
  (generation_calls (get_bot_response (load_serene_model loaded) req).2 = [] ↔
   loaded = None) ∧
  (loaded = None →
   (get_bot_response (load_serene_model loaded) req).1 =
     Some (Text unavailable_message 200%Z)).
Proof.
  intros Hauth Hne Hc. rewrite get_bot_response_message by done.
  destruct (message_of req) as [|c m]; [done|]. rewrite Hc.
  destruct loaded as [[t md]|]; simpl; [|done].
  split; [|done]. split; [|done].
  by destruct (extract_reply _).
Qed.

(** X15: a POST without the "username" field, or with it but without the
    "password" field, is answered with the 400 of the missing key by signup
    and by login, before the table is looked at: the table and the session
    are left as they were, whether the username exists or not. *)
Theorem missing_field_rejected
    (salt : str) (req : request) (users : list User.t) :
  method req = POST →
  (form req !! "username" = None →
     signup salt req users = (BadRequestKeyError "username", users) ∧
     login req users = (BadRequestKeyError "username", session req)) ∧
  (is_Some (form req !! "username") → form req !! "password" = None →
     signup salt req users = (BadRequestKeyError "password", users) ∧
     login req users = (BadRequestKeyError "password", session req)).
Proof.
  intros Hm. unfold signup, login. rewrite Hm. split.
  - by intros ->.
  - intros [u ->] ->. done.
Qed.

(** X16: a username of whitespace only is not refused: it is stored as the
    empty username, with any password, the empty one included; all such
    usernames are the same account, so a second one is answered with
    "Username already exists!". *)
Theorem blank_usernames_collide
    (salt salt2 u pw u2 pw2 : str) (req req2 : request) (users : list User.t) :
  method req = POST →
  form req !! "username" = Some u → form req !! "password" = Some pw →
  method req2 = POST →
  form req2 !! "username" = Some u2 → form req2 !! "password" = Some pw2 →
  forallb isspace u = true → forallb isspace u2 = true →
  [] ∉ User.username <$> users →
  signup salt req users =
    (Redirect ep_login,
     users ++ [User.mk (next_id users) [] (generate_password_hash salt pw)]) ∧
  signup salt2 req2 (signup salt req users).2 =
    (Text (py "Username already exists!") 400%Z, (signup salt req users).2).
Proof.
  intros Hm Hu Hp Hm2 Hu2 Hp2 Hsp Hsp2 Hfree.
  apply strip_nil_iff in Hsp, Hsp2.
  assert (E : signup salt req users =
    (Redirect ep_login,
     users ++ [User.mk (next_id users) [] (generate_password_hash salt pw)])).
  { rewrite (signup_post _ _ _ _ _ Hm Hu Hp), Hsp.
    by rewrite (proj2 (filter_by_username_nil [] users) Hfree). }
  split; [done|]. rewrite E. simpl.
  rewrite (signup_post _ _ _ _ _ Hm2 Hu2 Hp2), Hsp2.
  rewrite filter_by_username_new; [done|].
  by apply filter_by_username_nil.
Qed.

Lemma filter_by_username_unique (users : list User.t) (user : User.t) :
  NoDup (User.username <$> users) → user ∈ users →
  filter_by_username (User.username user) users = [user].
Proof.
  unfold filter_by_username. induction users as [|x users IH];
    [by intros _ ?%elem_of_nil|].
  rewrite fmap_cons, NoDup_cons. intros [Hx Hnd] Hin.
  apply elem_of_cons in Hin as [->|Hin].
  - rewrite filter_cons_True by done. f_equal.
    by apply filter_by_username_nil.
  - rewrite filter_cons_False; [by apply IH|].
    intros E. apply Hx. rewrite E. by apply list_elem_of_fmap_2.
Qed.

(** X17: on a table with pairwise different usernames, a login with the
    username of a row, up to surrounding whitespace, is decided by the hash
    check of that row alone: it succeeds and stores the id of the row in the
    session when the stored hash checks against the password typed, and is
    answered with status 401, the session unchanged, when it does not. *)
Theorem login_decided_by_row_hash
    (users : list User.t) (user : User.t) (u pw' : str) (req : request) :
  NoDup (User.username <$> users) →
  user ∈ users →
  method req = POST →
  form req !! "username" = Some u →
  form req !! "password" = Some pw' →
  strip u = User.username user →
  login req users =
  if check_password_hash (User.password user) pw'
  then (Redirect ep_home, <["user_id" := User.id user]> (session req))
  else (Text (py "Invalid username or password.") 401%Z, session req).
Proof.
  intros Hnd Hin Hm Hu Hp Hname.
  rewrite (login_post _ _ _ _ Hm Hu Hp), Hname.
  by rewrite filter_by_username_unique.
Qed.

End Serene.

(** ** The development on concrete requests *)

Import Sample.

Lemma plain_check_generated (salt pw : str) :
  plain_check (plain_generate salt pw) pw = true.
Proof. by apply bool_decide_eq_true_2. Qed.

Lemma hmac_key_nul (pw : str) :
  (length pw < 64)%nat → hmac_key (pw ++ [0%N]) = hmac_key pw.
Proof.
  intros Hlen. unfold hmac_key. rewrite length_app, <- app_assoc. simpl.
  replace (64 - length pw)%nat with (S (64 - (length pw + 1))) by lia.
  done.
Qed.

Lemma hmac_contract : werkzeug_contract hmac_generate hmac_check.
Proof.
  split.
  - intros salt pw. by apply bool_decide_eq_true_2.
  - intros salt pw _ Hlen. apply bool_decide_eq_true_2.
    unfold hmac_generate. by rewrite hmac_key_nul.
Qed.

(** An authenticated "I want to hurt myself" gets the safety message and
    calls no generation. *)
Lemma C1_hurt_myself :
  let r := get_bot_response keep_case no_model
             (chat (py "I want to hurt myself") logged_in) in
  r.1 = Some (Text safety_message 200%Z) ∧ generation_calls r.2 = [] ∧
  substring (py "emergency services") safety_message.
Proof.
  apply (C1_crisis_phrase_short_circuits keep_case no_model
           (chat (py "I want to hurt myself") logged_in) (py "hurt myself")).
  - by eexists.
  - by vm_compute.
  - unfold crisis_words. set_solver.
  - apply contains_substring. by vm_compute.
Defined.

(** C2 as stated fails: with no model loaded, an authenticated request with
    a crisis phrase gets the safety message, not the unavailability
    message. *)
Lemma C2_not_every_request :
  ¬ ∀ (unicode_lower : str → str) (g : globals) (req : request),
      authenticated req →
      model g = None ∨ tokenizer g = None →
      (get_bot_response unicode_lower g req).1 =
        Some (Text unavailable_message 200%Z).
Proof.
  intros H.
  specialize (H keep_case no_model (chat (py "I want to die") logged_in)).
  assert (Ha : authenticated (chat (py "I want to die") logged_in))
    by by eexists.
  specialize (H Ha (or_introl eq_refl)). vm_compute in H. discriminate H.
Qed.

Lemma C2_hello_unavailable :
  let r := get_bot_response keep_case no_model (chat (py "hello") logged_in) in
  r.1 = Some (Text unavailable_message 200%Z) ∧ generation_calls r.2 = [].
Proof.
  apply (C2_unavailable_after_the_guards keep_case no_model
           (chat (py "hello") logged_in)).
  - by eexists.
  - by vm_compute.
  - by vm_compute.
  - by left.
Defined.

(** C3 as stated fails: on an authenticated "hello" the empty-input check is
    executed before the crisis check. *)
Lemma C3_empty_check_comes_first :
  ¬ ∀ (unicode_lower : str → str) (g : globals) (req : request),
      crisis_check_first (get_bot_response unicode_lower g req).2.
Proof.
  intros H.
  specialize (H keep_case no_model (chat (py "hello") logged_in) EvEmptyCheck).
  assert (is_entry EvEmptyCheck = true); [|done].
  apply H. by exists [EvSessionCheck; EvReadMessage], [], [EvModelCheck].
Qed.

Lemma C3_hello_trace :
  ∃ rest,
    (get_bot_response keep_case no_model (chat (py "hello") logged_in)).2 =
      [EvSessionCheck; EvReadMessage; EvEmptyCheck; EvCrisisCheck] ++ rest ∧
    Forall (λ e, is_after_crisis e = true) rest.
Proof.
  apply (C3_crisis_check_position keep_case no_model
           (chat (py "hello") logged_in)).
  - by eexists.
  - by vm_compute.
Defined.

Lemma C4_hundred_words :
  format_reply (join (py " ") (replicate 100 (py "calm"))) =
  join (py " ") (replicate 60 (py "calm")) ++ py "...".
Proof.
  apply (C4_format_reply []). split; [discriminate | reflexivity].
Defined.

Lemma C5_serene_reply :
  ∃ pre post kept,
    py "User: hi Serene:  fine " = pre ++ py "Serene:" ++ post ∧
    (∀ j, (j < length pre)%nat →
          ¬ occurs_at (py "Serene:") (py "User: hi Serene:  fine ") j) ∧
    extract_reply (py "User: hi Serene:  fine ") = Some kept ∧
    kept = strip post ∧ trimmed post kept.
Proof.
  apply (C5_extract_reply (py "User: hi Serene:  fine ")).
  by exists (py "User: hi "), (py "  fine ").
Defined.

Lemma C6_alice :
  let users' := (signup plain_generate (py "s")
                   (credentials (py "alice") (py "secret")) []).2 in
  (signup plain_generate (py "s")
     (credentials (py "alice") (py "secret")) []).1 = Redirect ep_login ∧
  login plain_check (credentials (py "alice") (py "secret")) users' =
    (Redirect ep_home, <["user_id" := next_id []]> ∅) ∧
  authenticated
    (mkRequest POST ∅
       (login plain_check (credentials (py "alice") (py "secret")) users').2) ∧
  login plain_check (credentials (py "alice") (py "guess")) users' =
    (Text (py "Invalid username or password.") 401%Z, ∅).
Proof.
  apply (C6_signup_then_login plain_generate plain_check plain_check_generated
           [] (py "s") (py "alice") (py "secret") (py "guess")
           (credentials (py "alice") (py "secret"))
           (credentials (py "alice") (py "secret"))
           (credentials (py "alice") (py "guess")) []);
    try reflexivity.
  by intros ?%elem_of_nil.
Defined.

(** C6 as stated fails: with a hasher that has the two facts of werkzeug's,
    after the signup of "alice" with the password "secret", the login with
    the other password "secret" followed by a NUL character is not answered
    with status 401: it succeeds. *)
Lemma C6_other_password_accepted :
  ¬ ∀ (generate_password_hash : str → str → str)
      (check_password_hash : str → str → bool),
      werkzeug_contract generate_password_hash check_password_hash →
      ∀ (users : list User.t) (salt u pw pw' : str) (req wreq : request),
        method req = POST →
        form req !! "username" = Some u →
        form req !! "password" = Some pw →
        strip u ∉ User.username <$> users →
        method wreq = POST →
        form wreq !! "username" = Some u →
        form wreq !! "password" = Some pw' →
        pw' ≠ pw →
        login check_password_hash wreq
          (signup generate_password_hash salt req users).2 =
        (Text (py "Invalid username or password.") 401%Z, session wreq).
Proof.
  intros H.
  specialize (H hmac_generate hmac_check hmac_contract
                [] (py "s") (py "alice") (py "secret") (py "secret" ++ [0%N])
                (credentials (py "alice") (py "secret"))
                (credentials (py "alice") (py "secret" ++ [0%N]))
                eq_refl eq_refl eq_refl).
  assert (Hfree : strip (py "alice") ∉ User.username <$> @nil User.t)
    by by intros ?%elem_of_nil.
  specialize (H Hfree eq_refl eq_refl eq_refl).
  assert (Hne : py "secret" ++ [0%N] ≠ py "secret") by by vm_compute.
  specialize (H Hne).
  assert (Hacc :
    login hmac_check (credentials (py "alice") (py "secret" ++ [0%N]))
      (signup hmac_generate (py "s")
         (credentials (py "alice") (py "secret")) []).2 =
    (Redirect ep_home, <["user_id" := next_id []]> ∅)).
  { apply (login_accepts_nul_padded hmac_generate hmac_check
             [] (py "s") (py "alice") (py "secret")
             (credentials (py "alice") (py "secret"))
             (credentials (py "alice") (py "secret" ++ [0%N])) []
             (proj2 hmac_contract)); try reflexivity; [|done].
    change (length (py "secret")) with 6%nat. lia. }
  rewrite Hacc in H. discriminate H.
Qed.

Lemma C7_alice_twice :
  let users' := (signup plain_generate (py "s")
                   (credentials (py "alice") (py "secret")) []).2 in
  signup plain_generate (py "t") (credentials (py " alice ") (py "other")) users' =
    (Text (py "Username already exists!") 400%Z, users') ∧
  length (filter_by_username (strip (py "alice")) users') = 1%nat ∧
  length (filter_by_username (strip (py "alice"))
            (signup plain_generate (py "t")
               (credentials (py " alice ") (py "other")) users').2) = 1%nat.
Proof.
  apply (C7_duplicate_username_rejected plain_generate
           [] (py "s") (py "t") (py "alice") (py "secret")
           (py " alice ") (py "other")
           (credentials (py "alice") (py "secret"))
           (credentials (py " alice ") (py "other")) []);
    reflexivity.
Defined.

Lemma C8_no_session :
  get_bot_response keep_case no_model (chat (py "I want to die") ∅) =
  (Some (Text (py "Please log in to chat.") 401%Z), [EvSessionCheck]).
Proof.
  apply (C8_unauthenticated_chat_rejected keep_case no_model
           (chat (py "I want to die") ∅)).
  intros [x Hx]. discriminate Hx.
Defined.

Lemma C9_unknown_and_wrong :
  let users := [User.mk 1 (py "alice") (py "secret")] in
  let r1 := login plain_check (credentials (py "bob") (py "secret")) users in
  let r2 := login plain_check (credentials (py "alice") (py "guess")) users in
  r1.1 = r2.1 ∧
  r1.1 = Text (py "Invalid username or password.") 401%Z ∧
  r1.2 = ∅ ∧ r2.2 = ∅.
Proof.
  apply (C9_login_failures_alike plain_check
           [User.mk 1 (py "alice") (py "secret")]
           (credentials (py "bob") (py "secret"))
           (credentials (py "alice") (py "guess"))
           (py "bob") (py "secret") (py "alice") (py "guess")
           (User.mk 1 (py "alice") (py "secret")));
    try reflexivity.
  intros H. apply list_elem_of_In in H. vm_compute in H.
  destruct H as [H|[]]. discriminate H.
Defined.


(** Further runs: newlines are whitespace for the formatter; usernames are
    compared as they are, case included; a password with a space in front is
    another password; with a model loaded, the reply is extracted from the
    decoded text and formatted. *)
Example collapse_newlines :
  re_sub_ws (py "a" ++ [10%N; 10%N; 32%N; 9%N] ++ py "b") = py "a b".
Proof. reflexivity. Qed.

Example signup_other_case :
  (signup plain_generate (py "t") (credentials (py "Alice") (py "x"))
     [User.mk 1 (py "alice") (py "secret")]).1 = Redirect ep_login.
Proof. reflexivity. Qed.

Example login_padded_password :
  login plain_check (credentials (py " alice ") (py " secret"))
    [User.mk 1 (py "alice") (py "secret")] =
  (Text (py "Invalid username or password.") 401%Z, ∅).
Proof. reflexivity. Qed.

Example chat_with_model :
  get_bot_response keep_case with_model (chat (py " hello ") logged_in) =
  (Some (Text (py "I hear you.") 200%Z),
   [EvSessionCheck; EvReadMessage; EvEmptyCheck; EvCrisisCheck; EvModelCheck;
    EvTokenize (build_prompt (py "hello"));
    EvGenerate (Z.of_N <$> build_prompt (py "hello"));
    EvDecode (Z.of_N <$> (build_prompt (py "hello") ++ [32%N; 10%N] ++
                            py "I hear  you. "));
    EvExtract; EvFormat]).
Proof. reflexivity. Qed.

(** ** The further properties on concrete requests *)

Lemma echoed_prompt_hello :
  (¬ substring (py "Serene:") (py "hello") →
     extract_reply (build_prompt (py "hello") ++ py " Hi there ") =
       Some (strip (py " Hi there "))) ∧
  (∀ a b, py "hello" = a ++ py "Serene:" ++ b →
     (∀ j, (j < length a)%nat → ¬ occurs_at (py "Serene:") (py "hello") j) →
     extract_reply (build_prompt (py "hello") ++ py " Hi there ") =
       Some (strip (b ++ [10%N] ++ py "Serene:" ++ py " Hi there "))).
Proof. apply (extract_reply_on_echoed_prompt (py "hello") (py " Hi there ")). Defined.

Lemma end_to_end_hello :
  let prompt := build_prompt (py "hello") in
  let output := generate parrot (encode codepoints prompt)
                  (generation_config codepoints) in
  let r := get_bot_response keep_case with_model
             (chat (py " hello ") logged_in) in
  r.1 = Some (Text (format_reply (strip ([32%N; 10%N] ++ py "I hear  you. ")))
                200%Z) ∧
  generation_calls r.2 =
    [EvTokenize prompt; EvGenerate (encode codepoints prompt); EvDecode output] ∧
  (length (split (format_reply (strip ([32%N; 10%N] ++ py "I hear  you. "))))
   ≤ 60)%nat.
Proof.
  apply (chat_reply_end_to_end keep_case with_model
           (chat (py " hello ") logged_in) codepoints parrot
           ([32%N; 10%N] ++ py "I hear  you. ")).
  - by eexists.
  - by vm_compute.
  - by vm_compute.
  - intros H. apply contains_substring in H. by vm_compute in H.
  - reflexivity.
  - reflexivity.
  - by vm_compute.
Defined.

Lemma crisis_filter_mixed_case :
  contains_crisis_language keep_case (py "I WANT to Die") = true ↔
  ∃ word pre mid post,
    word ∈ crisis_words ∧ py "I WANT to Die" = pre ++ mid ++ post ∧
    ascii_lower <$> mid = word.
Proof.
  apply (contains_crisis_language_ascii keep_case (py "I WANT to Die")).
  reflexivity.
Defined.

Lemma crisis_in_padded_message :
  let r := get_bot_response keep_case with_model
             (chat (py "  please, I Want To DIE now  ") logged_in) in
  r.1 = Some (Text safety_message 200%Z) ∧ generation_calls r.2 = [].
Proof.
  apply (crisis_phrase_in_raw_message keep_case with_model
           (chat (py "  please, I Want To DIE now  ") logged_in)
           (py "  please, I Want To DIE now  ")
           (py "  please, I ") (py "Want To DIE") (py " now  ")
           (py "want to die")).
  - by eexists.
  - reflexivity.
  - reflexivity.
  - reflexivity.
  - unfold crisis_words. do 3 (apply elem_of_cons; right).
    apply elem_of_cons. by left.
  - reflexivity.
Defined.

Lemma signup_alice_appends :
  ∃ u pw,
    method (credentials (py " alice ") (py "secret")) = POST ∧
    form (credentials (py " alice ") (py "secret")) !! "username" = Some u ∧
    form (credentials (py " alice ") (py "secret")) !! "password" = Some pw ∧
    (strip u ∉ User.username <$> []) ∧
    (signup plain_generate (py "s")
       (credentials (py " alice ") (py "secret")) []).2 =
      [] ++ [User.mk (next_id []) (strip u) (plain_generate (py "s") pw)].
Proof.
  apply (signup_appends_or_keeps plain_generate (py "s")
           (credentials (py " alice ") (py "secret")) []).
  reflexivity.
Defined.

Lemma usernames_unique_after_two :
  NoDup (User.username <$>
           run_signups plain_generate
             [(py "s", credentials (py "alice") (py "secret"));
              (py "t", credentials (py " alice ") (py "other"))] []).
Proof.
  apply (usernames_stay_unique plain_generate
           [(py "s", credentials (py "alice") (py "secret"));
            (py "t", credentials (py " alice ") (py "other"))] []).
  constructor.
Defined.

Lemma login_alice_row :
  ∃ u pw user,
    method (credentials (py "alice") (py "secret")) = POST ∧
    form (credentials (py "alice") (py "secret")) !! "username" = Some u ∧
    form (credentials (py "alice") (py "secret")) !! "password" = Some pw ∧
    user ∈ [User.mk 7 (py "alice") (py "secret")] ∧
    User.username user = strip u ∧
    plain_check (User.password user) pw = true ∧
    (login plain_check (credentials (py "alice") (py "secret"))
       [User.mk 7 (py "alice") (py "secret")]).2 =
      <["user_id" := User.id user]> ∅.
Proof.
  apply (login_needs_matching_row plain_check
           (credentials (py "alice") (py "secret"))
           [User.mk 7 (py "alice") (py "secret")]).
  reflexivity.
Defined.

Lemma routes_open_after_login :
  let s := (login plain_check (credentials (py "alice") (py "secret"))
              [User.mk 7 (py "alice") (py "secret")]).2 in
  home (chat (py "hi") s) = Render index_html ∧
  (get_bot_response keep_case no_model (chat (py "hi") s)).1 ≠
    Some (Text (py "Please log in to chat.") 401%Z) ∧
  ∃ tr, (get_bot_response keep_case no_model (chat (py "hi") s)).2 =
        EvSessionCheck :: EvReadMessage :: tr.
Proof.
  apply (login_opens_routes keep_case plain_check no_model
           (credentials (py "alice") (py "secret"))
           (chat (py "hi")
              (login plain_check (credentials (py "alice") (py "secret"))
                 [User.mk 7 (py "alice") (py "secret")]).2)
           [User.mk 7 (py "alice") (py "secret")]);
    reflexivity.
Defined.

Lemma routes_closed_after_logout :
  (logout (chat (py "bye") logged_in)).1 = Redirect ep_login ∧
  home (chat (py "hi") ∅) = Redirect ep_login ∧
  get_bot_response keep_case with_model (chat (py "hi") ∅) =
    (Some (Text (py "Please log in to chat.") 401%Z), [EvSessionCheck]).
Proof.
  apply (logout_closes_routes keep_case with_model
           (chat (py "bye") logged_in) (chat (py "hi") ∅)).
  reflexivity.
Defined.

Lemma blank_message_spaces :
  forallb isspace (default [] (form (chat [32%N; 9%N; 10%N] logged_in) !! "msg"))
    = true ↔
  get_bot_response keep_case with_model (chat [32%N; 9%N; 10%N] logged_in) =
    (Some (Text empty_message 200%Z),
     [EvSessionCheck; EvReadMessage; EvEmptyCheck]).
Proof.
  apply (blank_message_prompted keep_case with_model
           (chat [32%N; 9%N; 10%N] logged_in)).
  by eexists.
Defined.

Lemma no_generation_when_not_loaded :
  (generation_calls
     (get_bot_response keep_case (load_serene_model None)
        (chat (py "hello") logged_in)).2 = [] ↔
   @None (Tokenizer * Model) = None) ∧
  (@None (Tokenizer * Model) = None →
   (get_bot_response keep_case (load_serene_model None)
      (chat (py "hello") logged_in)).1 =
     Some (Text unavailable_message 200%Z)).
Proof.
  apply (generation_iff_loaded keep_case None (chat (py "hello") logged_in)).
  - by eexists.
  - by vm_compute.
  - by vm_compute.
Defined.

Lemma empty_form_rejected :
  (form (mkRequest POST ∅ ∅) !! "username" = None →
     signup plain_generate (py "s") (mkRequest POST ∅ ∅) [] =
       (BadRequestKeyError "username", []) ∧
     login plain_check (mkRequest POST ∅ ∅) [] =
       (BadRequestKeyError "username", ∅)) ∧
  (is_Some (form (mkRequest POST ∅ ∅) !! "username") →
   form (mkRequest POST ∅ ∅) !! "password" = None →
     signup plain_generate (py "s") (mkRequest POST ∅ ∅) [] =
       (BadRequestKeyError "password", []) ∧
     login plain_check (mkRequest POST ∅ ∅) [] =
       (BadRequestKeyError "password", ∅)).
Proof.
  apply (missing_field_rejected plain_generate plain_check (py "s")
           (mkRequest POST ∅ ∅) []).
  reflexivity.
Defined.

Lemma blank_usernames_twice :
  signup plain_generate (py "s") (credentials (py "  ") []) [] =
    (Redirect ep_login,
     [] ++ [User.mk (next_id []) [] (plain_generate (py "s") [])]) ∧
  signup plain_generate (py "t") (credentials [9%N] (py "pw"))
    (signup plain_generate (py "s") (credentials (py "  ") []) []).2 =
    (Text (py "Username already exists!") 400%Z,
     (signup plain_generate (py "s") (credentials (py "  ") []) []).2).
Proof.
  apply (blank_usernames_collide plain_generate (py "s") (py "t")
           (py "  ") [] [9%N] (py "pw")
           (credentials (py "  ") []) (credentials [9%N] (py "pw")) []);
    try reflexivity.
  by intros ?%elem_of_nil.
Defined.

Lemma login_alice_either_way :
  login plain_check (credentials (py " alice") (py "guess"))
    [User.mk 7 (py "alice") (py "secret"); User.mk 8 (py "bob") (py "pw")] =
  if plain_check (py "secret") (py "guess")
  then (Redirect ep_home, <["user_id" := 7%Z]> ∅)
  else (Text (py "Invalid username or password.") 401%Z, ∅).
Proof.
  apply (login_decided_by_row_hash plain_check
           [User.mk 7 (py "alice") (py "secret"); User.mk 8 (py "bob") (py "pw")]
           (User.mk 7 (py "alice") (py "secret"))
           (py " alice") (py "guess")
           (credentials (py " alice") (py "guess")));
    try reflexivity.
  - apply (bool_decide_eq_true_1 (NoDup _)). reflexivity.
  - apply elem_of_cons. by left.
Defined.
